(** * azure_app_detector.py: the probe, the thread-pool dispatch loop and [main]

    A shallow embedding of [src/azure_app_detector.py].

    - Values decoded from a response body are a [json] tree; the record a
      probe returns is the Python dict it builds, a [gmap string json].
    - [try]/[except] is an error monad ([outcome]).
    - The network, the file system, the console and the few library calls
      whose result the program only passes on ([str()], [str.strip],
      [csv.DictReader], ...) are the [host].  A [print] or a [time.sleep]
      that the host refuses raises, as any other call does.
    - A string is the UTF-8 encoding of the Python string.
    - The [with ThreadPoolExecutor(...)] block is a transition system over
      the state of the executor and of the main thread; a run is driven by a
      list of [action]s, which fixes the interleaving of the threads, the
      replies of the network and the passing of time. *)

From stdpp Require Import base strings list gmap pretty.
From Stdlib Require Import ZArith QArith Lqa.
Close Scope Q_scope.

Set Warnings "-register-all,-notation-for-abbreviation,-clear-no-such-hyp".

(** ** Python values *)

(** A Python float by its exact value: every finite double is a rational. *)
Inductive pyfloat :=
| PyNaN
| PyInf (negative : bool)
| PyFinite (q : Q).

(** What [response.json()] can return. *)
Inductive json :=
| JNull
| JBool (b : bool)
| JInt (n : Z)
| JFloat (f : pyfloat)
| JStr (s : string)
| JList (l : list json)
| JDict (m : gmap string json).

(** An exception, by its class and by [str(e)]. *)
Record exception := Exception { exc_class : string; exc_str : string }.

(** The result of a block that may raise. *)
Inductive outcome (A : Type) :=
| Return (a : A)
| Raise (e : exception).
Arguments Return {A} a.
Arguments Raise {A} e.

#[export] Instance outcome_ret : MRet outcome := λ A a, Return a.
#[export] Instance outcome_bind : MBind outcome := λ A B f m,
  match m with
  | Return a => f a
  | Raise e => Raise e
  end.

(** [type(v).__name__] *)
Definition py_type_name (v : json) : string :=
  match v with
  | JNull => "NoneType"
  | JBool _ => "bool"
  | JInt _ => "int"
  | JFloat _ => "float"
  | JStr _ => "str"
  | JList _ => "list"
  | JDict _ => "dict"
  end.

(** [obj.get(key, fallback)]: only a dict has the method. *)
Definition py_get (obj : json) (key : string) (fallback : json) : outcome json :=
  match obj with
  | JDict m => Return (default fallback (m !! key))
  | _ => Raise (Exception "AttributeError"
                  ("'" +:+ py_type_name obj +:+ "' object has no attribute 'get'"))
  end.

(** The number of bytes of the encoding of a character, from the first of
    them: one below [0xC0], two below [0xE0], three below [0xF0] (a lone
    surrogate, which a decoded JSON string can hold, has the three bytes of
    its code point), four from there on. *)
Definition utf8_width (c : Ascii.ascii) : nat :=
  let n := Ascii.nat_of_ascii c in
  if n <? 192 then 1 else if n <? 224 then 2 else if n <? 240 then 3 else 4.

(** [s[0]] for a string that is not empty: its first character. *)
Definition first_char (s : string) : string :=
  match s with
  | EmptyString => EmptyString
  | String c _ => String.substring 0 (utf8_width c) s
  end.

(** [obj[0]].  The keys of a decoded JSON object are strings, so the key [0]
    is never in a dict. *)
Definition py_item0 (obj : json) : outcome json :=
  match obj with
  | JList (x :: _) => Return x
  | JList [] => Raise (Exception "IndexError" "list index out of range")
  | JStr (String c rest) => Return (JStr (first_char (String c rest)))
  | JStr EmptyString => Raise (Exception "IndexError" "string index out of range")
  | JDict _ => Raise (Exception "KeyError" "0")
  | _ => Raise (Exception "TypeError"
                  ("'" +:+ py_type_name obj +:+ "' object is not subscriptable"))
  end.

(** [v == n] for an int literal [n]: numbers compare by value ([True] is 1,
    [7000215.0 == 7000215]), everything else is unequal to an int. *)
Definition py_eq_int (v : json) (n : Z) : bool :=
  match v with
  | JInt k => (k =? n)%Z
  | JBool b => ((if b then 1 else 0) =? n)%Z
  | JFloat (PyFinite q) => Qeq_bool q (inject_Z n)
  | _ => false
  end.

(** [s or 'Unknown'] *)
Definition or_unknown (s : string) : string :=
  match s with
  | EmptyString => "Unknown"
  | _ => s
  end.

(** [needle in hay] *)
Fixpoint contains (needle hay : string) : bool :=
  if String.prefix needle hay then true
  else match hay with
       | EmptyString => false
       | String _ rest => contains needle rest
       end.

Definition tab : string := String (Ascii.ascii_of_nat 9) EmptyString.

(** ** The boundary of the program *)

(** The body of the POST of [check_app_existence] and its headers. *)
Record request := Request {
  url : string;
  data : gmap string string;
  headers : gmap string string
}.

(** How one HTTP exchange ends for the two calls of the [try] block that
    touch the network: [requests.post] raises (connection, DNS, TLS, ...),
    or it returns and [response.json()] raises (the body is not JSON), or the
    body decodes. *)
Inductive http_reply :=
| PostRaises (e : exception)
| JsonRaises (e : exception)
| JsonBody (j : json).

(** A computation that sends one request and goes on with its reply. *)
Record exchange (A : Type) := Post { sent : request; continue : http_reply → A }.
Arguments Post {A} sent continue.
Arguments sent {A} _.
Arguments continue {A} _ _.

(** An entry of [app_info]: [{'client_id': ..., 'display_name': ...}]. *)
Record app := App { app_client_id : string; app_display_name : string }.

(** Library calls, the console and the file system.  The file system does
    not change during a run. *)
Record host := Host {
  (** [str(v)], as an f-string formats a decoded value *)
  py_str : json → string;
  (** [s.strip()] *)
  str_strip : string → string;
  (** [os.path.splitext(path)[1].lower()] *)
  splitext_lower : string → string;
  (** [open(path, 'r', encoding='utf-8')] and all the lines of the file *)
  read_lines : string → outcome (list string);
  (** [open(path, 'r', encoding='utf-8')] and [f.readline()] *)
  read_first_line : string → outcome string;
  (** the rows of [csv.DictReader(f, delimiter=...)] over the file; a cell
      that the row is too short for is [None] *)
  dict_reader : string → string → outcome (list (gmap string (option string)));
  (** [open(path, 'w', encoding='utf-8')] and [json.dump(results, f, ...)]:
      the exception raised, if any *)
  write_json : string → list (gmap string json) → option exception;
  (** [print(line)]: the exception raised, if any (the encoding of the
      stream has no code for a character of the line, the stream is closed) *)
  print_error : string → option exception;
  (** [time.sleep(d)]: the exception raised when the length [d] is
      converted to the unit of the clock, if any (it is too large) *)
  sleep_error : Q → option exception;
  (** the exception raised when the interpreter flushes its standard
      streams as it exits, if any (the device is full, the pipe is broken) *)
  flush_error : option exception
}.

(** [print] on the console that holds [out]: the exception raised, if any,
    and the console after the call. *)
Definition print (h : host) (line : string) (out : list string)
    : option exception * list string :=
  match print_error h line with
  | Some e => (Some e, out)
  | None => (None, out ++ [line])
  end.

(** One [print] after the other, up to the first that raises. *)
Fixpoint prints (h : host) (lines : list string) (out : list string)
    : option exception * list string :=
  match lines with
  | [] => (None, out)
  | line :: rest =>
      match print_error h line with
      | Some e => (Some e, out)
      | None => prints h rest (out ++ [line])
      end
  end.

(** ** [check_app_existence] *)

Definition token_request (client_id tenant : string) : request :=
  {| url := "https://login.microsoftonline.com/" +:+ tenant +:+ "/oauth2/v2.0/token";
     data := {[ "client_id" := client_id;
                "client_secret" := "invalid_secret";
                "scope" := "https://graph.microsoft.com/.default";
                "grant_type" := "client_credentials" ]};
     headers := {[ "Content-Type" := "application/x-www-form-urlencoded" ]} |}.

(** [response = requests.post(...)] then [response.json()] *)
Definition response_json (reply : http_reply) : outcome json :=
  match reply with
  | PostRaises e => Raise e
  | JsonRaises e => Raise e
  | JsonBody j => Return j
  end.

(** Lines 45-46: the two fields read from the decoded body. *)
Definition read_error_fields (error_json : json) : outcome (json * json) :=
  codes ← py_get error_json "error_codes" (JList [JInt 0]);
  error_code ← py_item0 codes;
  error_description ← py_get error_json "error_description" (JStr "");
  mret (error_code, error_description).

(** The line of lines 48-49. *)
Definition debug_line (h : host) (client_id : string) (error_code : json) : string :=
  "[DEBUG] Client ID: " +:+ client_id +:+ ", Error Code: " +:+ py_str h error_code.

(** Lines 48-49, which are inside the [try]: the lines printed, or the
    exception of the [print]. *)
Definition debug_print (h : host) (verbose : bool) (client_id : string) (error_code : json)
    : outcome (list string) :=
  if verbose
  then match print_error h (debug_line h client_id error_code) with
       | Some e => Raise e
       | None => Return [debug_line h client_id error_code]
       end
  else Return [].

(** Lines 25-83.  The value is the request sent and, for each way the
    exchange can end, the lines printed and the dict returned. *)
Definition check_app_existence (h : host) (client_id tenant display_name : string)
    (verbose : bool) : exchange (list string * gmap string json) :=
  Post (token_request client_id tenant) (λ reply,
    let try : outcome (list string * gmap string json) :=
      error_json ← response_json reply;
      '(error_code, error_description) ← read_error_fields error_json;
      printed ← debug_print h verbose client_id error_code;
      if py_eq_int error_code 7000215 then
        mret (printed, {[ "client_id" := JStr client_id;
                          "display_name" := JStr display_name;
                          "status" := JStr "exists";
                          "error_code" := error_code;
                          "error_description" := error_description ]})
      else if py_eq_int error_code 700016 then
        mret (printed, {[ "client_id" := JStr client_id;
                          "display_name" := JStr display_name;
                          "status" := JStr "not_found";
                          "error_code" := error_code;
                          "error_description" := error_description ]})
      else
        mret (printed, {[ "client_id" := JStr client_id;
                          "display_name" := JStr display_name;
                          "status" := JStr "unknown";
                          "error_code" := error_code;
                          "error_description" := error_description ]}) in
    match try with
    | Return r => r
    | Raise e => ([], {[ "client_id" := JStr client_id;
                         "display_name" := JStr display_name;
                         "status" := JStr "error";
                         "error_message" := JStr (exc_str e) ]})
    end).

(** The dict a probe returns when its exchange ends with [reply]. *)
Definition probe_result (h : host) (a : app) (tenant : string) (verbose : bool)
    (reply : http_reply) : gmap string json :=
  (continue (check_app_existence h (app_client_id a) tenant (app_display_name a) verbose)
     reply).2.

(** ** The loaders *)

(** Lines 85-96. *)
Definition load_client_ids_from_txt (h : host) (file_path : string) : outcome (list app) :=
  lines ← read_lines h file_path;
  Return (omap (M := list) (λ line,
                let client_id := str_strip h line in
                if bool_decide (client_id = "") then None else Some (App client_id ""))
             lines).

(** [cell.strip()] on a cell of a row: a missing cell is [None], which has
    no such method. *)
Definition cell_strip (h : host) (cell : option string) : outcome string :=
  match cell with
  | Some s => Return (str_strip h s)
  | None => Raise (Exception "AttributeError" "'NoneType' object has no attribute 'strip'")
  end.

(** Lines 109-114: the loop over the rows, [app_info] being the list built
    so far. *)
Fixpoint csv_rows (h : host) (rows : list (gmap string (option string)))
    (app_info : list app) : outcome (list app) :=
  match rows with
  | [] => Return app_info
  | row :: rest =>
      match row !! "appId" with
      | None => csv_rows h rest app_info
      | Some cell =>
          appId ← cell_strip h cell;
          if bool_decide (appId = "") then csv_rows h rest app_info
          else
            displayName ← cell_strip h (default (Some "") (row !! "displayName"));
            csv_rows h rest (app_info ++ [App appId displayName])
      end
  end.

(** Lines 98-115. *)
Definition load_client_ids_from_csv (h : host) (file_path : string) : outcome (list app) :=
  line ← read_first_line h file_path;
  let first_line := str_strip h line in
  let delimiter := if contains tab first_line then tab else "," in
  rows ← dict_reader h file_path delimiter;
  csv_rows h rows [].

(** Lines 121-140: the lines printed and the list loaded, or the exception
    that reaches the [except] of line 141. *)
Definition load_app_info (h : host) (file : string) : list string * outcome (list app) :=
  let file_extension := splitext_lower h file in
  if bool_decide (file_extension = ".txt") then
    (["[INFO] Detected TXT format file"], load_client_ids_from_txt h file)
  else if bool_decide (file_extension = ".csv") || bool_decide (file_extension = ".tsv") then
    (["[INFO] Detected CSV format file"], load_client_ids_from_csv h file)
  else
    match read_first_line h file with
    | Raise e => ([], Raise e)
    | Return line =>
        let first_line := str_strip h line in
        if contains tab first_line
           || (contains "," first_line
               && (contains "appId" first_line || contains "displayName" first_line))
        then (["[INFO] Identified as CSV format file based on content"],
              load_client_ids_from_csv h file)
        else (["[INFO] Identified as TXT format file based on content"],
              load_client_ids_from_txt h file)
    end.

(** ** The [with ThreadPoolExecutor(...)] block, lines 156-175 *)

(** [ThreadPoolExecutor(max_workers=n)] *)
Definition ThreadPoolExecutor (max_workers : Z) : outcome unit :=
  if (max_workers <=? 0)%Z
  then Raise (Exception "ValueError" "max_workers must be greater than 0")
  else Return ().

(** Where the main thread is.  [Submitting i]: at the head of the first loop,
    [i] entries of [app_info] submitted.  [Sleeping i wake]: in the
    [time.sleep] that follows the submission of entry [i], to return once the
    clock has reached [wake].  [Collecting j]: at the head of the second loop,
    [j] futures read.  [Leaving e]: in [executor.__exit__], which is
    [shutdown(wait=True)], the block left normally or by the exception [e].
    [Left e]: after the block. *)
Inductive main_pc :=
| Submitting (i : nat)
| Sleeping (i : nat) (wake : Q)
| Collecting (j : nat)
| Leaving (e : option exception)
| Left (e : option exception).

(** The state of the block.  Work item [i] is the call submitted for
    [app_info[i]]; [futures] is the list of line 157, entry [i] being the
    result of the future of work item [i] once it is set.  [net_log] is the
    list of the requests sent, oldest first, each with the work item that
    sent it; [submit_times] is the clock at each [executor.submit]. *)
Record pool := Pool {
  clock : Q;
  stdout : list string;
  net_log : list (nat * request);
  queue : list nat;
  running : gset nat;
  futures : list (option (gmap string json));
  submit_times : list Q;
  pc : main_pc;
  results : list (gmap string json);
  found_apps : list (gmap string json)
}.

(** One step of one thread, or time passing.
    [MainStep]: the main thread runs up to its next blocking point.
    [WorkerTake]: an idle worker takes the oldest work item of the queue and
    sends its request.
    [WorkerDone i reply]: the exchange of work item [i] ends with [reply];
    the worker runs the rest of [check_app_existence] and sets the future. *)
Inductive action :=
| Tick (dt : Q)
| MainStep
| WorkerTake
| WorkerDone (i : nat) (reply : http_reply).

(** [result['status'] == 'exists'] *)
Definition status_is (r : gmap string json) (s : string) : bool :=
  match r !! "status" with
  | Some (JStr s') => bool_decide (s' = s)
  | _ => false
  end.

(** The string under [key] of a result. *)
Definition str_field (r : gmap string json) (key : string) : string :=
  match r !! key with
  | Some (JStr s) => s
  | _ => ""
  end.

Section Dispatcher.
Variable h : host.
Variable app_info : list app.
Variable tenant : string.
Variable workers : Z.
Variable delay : Q.
Variable verbose : bool.

(** The call of line 159 for entry [a]. *)
Definition probe (a : app) : exchange (list string * gmap string json) :=
  check_app_existence h (app_client_id a) tenant (app_display_name a) verbose.

(** On entry of the block, the console holding [out]. *)
Definition pool_init (out : list string) : pool :=
  {| clock := 0%Q; stdout := out; net_log := []; queue := []; running := ∅;
     futures := []; submit_times := []; pc := Submitting 0;
     results := []; found_apps := [] |}.

(** [time.sleep(args.delay)] raises on a length it cannot convert, then on
    a negative length. *)
Definition after_submit (i : nat) (now : Q) : main_pc :=
  match sleep_error h delay with
  | Some e => Leaving (Some e)
  | None =>
      if Qle_bool 0 delay then Sleeping i (now + delay)%Q
      else Leaving (Some (Exception "ValueError" "sleep length must be non-negative"))
  end.

(** The line of line 175. *)
Definition found_line (result : gmap string json) : string :=
  "[FOUND] App Name: " +:+ or_unknown (str_field result "display_name")
    +:+ ", App ID: " +:+ str_field result "client_id".

(** The main thread, lines 158-175 and the exit of the block: [None] where it
    is blocked (in [time.sleep], in [future.result()], in [shutdown]).  The
    [print] of line 175 comes after the two [append]; when it raises, the
    block is left by its exception. *)
Definition main_step (s : pool) : option pool :=
  match pc s with
  | Submitting i =>
      match app_info !! i with
      | Some _ =>
          Some {| clock := clock s; stdout := stdout s; net_log := net_log s;
                  queue := queue s ++ [i]; running := running s;
                  futures := futures s ++ [None];
                  submit_times := submit_times s ++ [clock s];
                  pc := after_submit i (clock s);
                  results := results s; found_apps := found_apps s |}
      | None =>
          Some {| clock := clock s; stdout := stdout s; net_log := net_log s;
                  queue := queue s; running := running s; futures := futures s;
                  submit_times := submit_times s; pc := Collecting 0;
                  results := results s; found_apps := found_apps s |}
      end
  | Sleeping i wake =>
      if Qle_bool wake (clock s)
      then Some {| clock := clock s; stdout := stdout s; net_log := net_log s;
                   queue := queue s; running := running s; futures := futures s;
                   submit_times := submit_times s; pc := Submitting (S i);
                   results := results s; found_apps := found_apps s |}
      else None
  | Collecting j =>
      match futures s !! j with
      | Some (Some result) =>
          let found := status_is result "exists" in
          let '(raised, out) :=
            if found then print h (found_line result) (stdout s) else (None, stdout s) in
          Some {| clock := clock s; stdout := out;
                  net_log := net_log s; queue := queue s; running := running s;
                  futures := futures s; submit_times := submit_times s;
                  pc := match raised with
                        | Some e => Leaving (Some e)
                        | None => Collecting (S j)
                        end;
                  results := results s ++ [result];
                  found_apps := found_apps s ++ (if found then [result] else []) |}
      | Some None => None
      | None =>
          Some {| clock := clock s; stdout := stdout s; net_log := net_log s;
                  queue := queue s; running := running s; futures := futures s;
                  submit_times := submit_times s; pc := Leaving None;
                  results := results s; found_apps := found_apps s |}
      end
  | Leaving e =>
      if bool_decide (queue s = [] ∧ running s = ∅)
      then Some {| clock := clock s; stdout := stdout s; net_log := net_log s;
                   queue := queue s; running := running s; futures := futures s;
                   submit_times := submit_times s; pc := Left e;
                   results := results s; found_apps := found_apps s |}
      else None
  | Left _ => None
  end.

(** The state after [a], when [a] is enabled in [s].  A worker takes a work
    item only while fewer than [workers] exchanges are under way. *)
Definition step (a : action) (s : pool) : option pool :=
  match a with
  | Tick dt =>
      if Qle_bool 0 dt
      then Some {| clock := (clock s + dt)%Q; stdout := stdout s; net_log := net_log s;
                   queue := queue s; running := running s; futures := futures s;
                   submit_times := submit_times s; pc := pc s;
                   results := results s; found_apps := found_apps s |}
      else None
  | MainStep => main_step s
  | WorkerTake =>
      match queue s with
      | i :: rest =>
          match app_info !! i with
          | Some a =>
              if bool_decide (Z.of_nat (size (running s)) < workers)%Z
              then Some {| clock := clock s; stdout := stdout s;
                           net_log := net_log s ++ [(i, sent (probe a))];
                           queue := rest; running := {[i]} ∪ running s;
                           futures := futures s; submit_times := submit_times s;
                           pc := pc s;
                           results := results s; found_apps := found_apps s |}
              else None
          | None => None
          end
      | [] => None
      end
  | WorkerDone i reply =>
      match app_info !! i with
      | Some a =>
          if bool_decide (i ∈ running s)
          then let '(printed, result) := continue (probe a) reply in
               Some {| clock := clock s; stdout := stdout s ++ printed;
                       net_log := net_log s; queue := queue s;
                       running := running s ∖ {[i]};
                       futures := <[i := Some result]> (futures s);
                       submit_times := submit_times s; pc := pc s;
                       results := results s; found_apps := found_apps s |}
          else None
      | None => None
      end
  end.

(** A run: the actions of a schedule one after the other; [None] when one
    of them is not enabled where it stands. *)
Fixpoint exec (sched : list action) (s : pool) : option pool :=
  match sched with
  | [] => Some s
  | a :: sched' =>
      match step a s with
      | Some s' => exec sched' s'
      | None => None
      end
  end.
End Dispatcher.

(** ** [main] *)

(** The parsed command line, the value of [parse_arguments()].  [arg_delay]
    is the value of the float, which is finite. *)
Record arguments := Namespace {
  arg_tenant : string;
  arg_file : string;
  arg_output : option string;
  arg_workers : Z;
  arg_delay : Q;
  arg_verbose : bool
}.

(** How the process ends: [main] returns, [sys.exit(code)] is called, or an
    exception reaches the top level. *)
Inductive ending :=
| Returns
| SysExit (code : Z)
| Uncaught (e : exception).

(** The exit status that the ending asks for. *)
Definition exit_code (e : ending) : Z :=
  match e with
  | Returns => 0
  | SysExit code => code
  | Uncaught _ => 1
  end.

(** The exit status of the interpreter: it is 120, whatever the ending,
    when the standard streams cannot be flushed. *)
Definition exit_status (h : host) (e : ending) : Z :=
  match flush_error h with
  | Some _ => 120
  | None => exit_code e
  end.

(** What a run leaves behind: how it ended, the lines printed, the requests
    sent (oldest first), the list [results], and the output file with what
    was dumped to it, when [json.dump] returned. *)
Record process := Process {
  ended : ending;
  console : list string;
  requests_sent : list request;
  outcomes : list (gmap string json);
  written : option (string * list (gmap string json))
}.

Definition nl : string := String (Ascii.ascii_of_nat 10) EmptyString.

(** Lines 190-194. *)
Definition found_listing (found_apps : list (gmap string json)) : list string :=
  match found_apps with
  | [] => []
  | _ =>
      (nl +:+ "Existing application list:")
      :: map (λ a, "- Name: " +:+ or_unknown (str_field a "display_name")
                     +:+ ", ID: " +:+ str_field a "client_id")
             found_apps
  end.

(** Lines 177-179. *)
Definition summary (app_info : list app) (found_apps : list (gmap string json)) : list string :=
  [nl +:+ "[RESULT] Total applications checked: " +:+ pretty (length app_info);
   "[RESULT] Found existing applications: " +:+ pretty (length found_apps)].

(** A process that ends with the exception [e] at the top level. *)
Definition uncaught (e : exception) (out : list string) (requests : list request)
    (results : list (gmap string json))
    (file : option (string * list (gmap string json))) : process :=
  {| ended := Uncaught e; console := out; requests_sent := requests;
     outcomes := results; written := file |}.

(** Lines 181-188 on the console that holds [out]: the exception that leaves
    the [except] of line 187, if any, the console and the file written.  The
    [print] of line 186 is inside the [try]: when it raises, the file is
    written and the handler reports its exception. *)
Definition save_results (h : host) (output : option string)
    (results : list (gmap string json)) (out : list string)
    : option exception * list string * option (string * list (gmap string json)) :=
  match output with
  | None | Some EmptyString => (None, out, None)
  | Some path =>
      match write_json h path results with
      | Some e => (print h ("[ERROR] Unable to save results: " +:+ exc_str e) out, None)
      | None =>
          match print_error h ("[INFO] Results saved to " +:+ path) with
          | None => (None, out ++ ["[INFO] Results saved to " +:+ path], Some (path, results))
          | Some e =>
              (print h ("[ERROR] Unable to save results: " +:+ exc_str e) out,
               Some (path, results))
          end
      end
  end.

(** Lines 177-194, from the state in which the block was left.  None of the
    [print]s of lines 178-179 and 192-194 is in a [try]. *)
Definition report (h : host) (args : arguments) (app_info : list app) (s : pool) : process :=
  let requests := (net_log s).*2 in
  match prints h (summary app_info (found_apps s)) (stdout s) with
  | (Some e, out) => uncaught e out requests (results s) None
  | (None, out) =>
      let '(raised, out, file) := save_results h (arg_output args) (results s) out in
      match raised with
      | Some e => uncaught e out requests (results s) file
      | None =>
          match prints h (found_listing (found_apps s)) out with
          | (Some e, out) => uncaught e out requests (results s) file
          | (None, out) =>
              {| ended := Returns; console := out; requests_sent := requests;
                 outcomes := results s; written := file |}
          end
      end
  end.

(** Lines 149-150. *)
Definition announce (tenant : string) (app_info : list app) : list string :=
  ["[INFO] Starting detection in tenant " +:+ tenant;
   "[INFO] Loaded " +:+ pretty (length app_info) +:+ " application IDs"].

(** [print(line)] then [sys.exit(1)], outside any [try]. *)
Definition exit_with (h : host) (line : string) (out : list string) : process :=
  match print h line out with
  | (Some e, out) => uncaught e out [] [] None
  | (None, out) =>
      {| ended := SysExit 1; console := out;
         requests_sent := []; outcomes := []; written := None |}
  end.

(** Lines 119-194, for the parsed command line [args].  [sched] drives the
    [with] block; the value is [None] when [sched] is not a run of the block
    up to its end.  In the [try] of lines 121-140 the line of
    [load_app_info] is printed before the file is loaded, so its exception
    comes first. *)
Definition main (h : host) (args : arguments) (sched : list action) : option process :=
  let '(loading_lines, loaded) := load_app_info h (arg_file args) in
  let '(raised, out) := prints h loading_lines [] in
  match (match raised with Some e => Raise e | None => loaded end) with
  | Raise e => Some (exit_with h ("Error: Unable to read file: " +:+ exc_str e) out)
  | Return [] => Some (exit_with h "Error: No valid application ID data found" out)
  | Return app_info =>
      match prints h (announce (arg_tenant args) app_info) out with
      | (Some e, out) => Some (uncaught e out [] [] None)
      | (None, out) =>
          match ThreadPoolExecutor (arg_workers args) with
          | Raise e => Some (uncaught e out [] [] None)
          | Return _ =>
              s ← exec h app_info (arg_tenant args) (arg_workers args) (arg_delay args)
                     (arg_verbose args) sched (pool_init out);
              match pc s with
              | Left None => Some (report h args app_info s)
              | Left (Some e) => Some (uncaught e (stdout s) (net_log s).*2 (results s) None)
              | _ => None
              end
          end
      end
  end.

(** What [parse_arguments()] makes of the command line, line 118: argparse
    ends the process itself, with the status 2 on a command line it refuses
    and with the status 0 after the help, or returns the values. *)
Inductive command_line :=
| Refused
| Help
| Parsed (args : arguments).

(** The script run on a command line. *)
Definition script (h : host) (cl : command_line) (sched : list action) : option process :=
  match cl with
  | Refused =>
      Some {| ended := SysExit 2; console := [];
              requests_sent := []; outcomes := []; written := None |}
  | Help =>
      Some {| ended := SysExit 0; console := [];
              requests_sent := []; outcomes := []; written := None |}
  | Parsed args => main h args sched
  end.

(** ** Notions used in the statements *)

(** The candidate a result carries. *)
Definition candidate_of (r : gmap string json) : option app :=
  match r !! "client_id", r !! "display_name" with
  | Some (JStr c), Some (JStr d) => Some (App c d)
  | _, _ => None
  end.

(** The status of a result. *)
Definition status_of (r : gmap string json) : option string :=
  match r !! "status" with
  | Some (JStr s) => Some s
  | _ => None
  end.

(** The exception the [print] of lines 48-49 raises, if it is reached and
    raises, for the code [error_code] read from the body. *)
Definition debug_raises (h : host) (verbose : bool) (client_id : string)
    (error_code : json) : option exception :=
  if verbose then print_error h (debug_line h client_id error_code) else None.

(** Each of the lines can be printed: [print] raises on none of them. *)
Definition printable (h : host) (lines : list string) : Prop :=
  Forall (λ line, print_error h line = None) lines.

(** The lines of line 175 for the outcomes [results]: one for each outcome
    with the status "exists". *)
Definition found_lines (results : list (gmap string json)) : list string :=
  found_line <$> filter (λ r, status_is r "exists") results.

(** The outcomes of the candidates when the exchange of work item [i] ends
    with [replies i]. *)
Definition outcomes_for (h : host) (app_info : list app) (tenant : string)
    (verbose : bool) (replies : nat → http_reply) : list (gmap string json) :=
  imap (λ i a, probe_result h a tenant verbose (replies i)) app_info.

(** The line of lines 181-188 when its [print] does not raise: none without
    an output path, the path when [json.dump] returns, the exception when
    the writing raises. *)
Definition save_line (h : host) (output : option string)
    (results : list (gmap string json)) : list string :=
  match output with
  | None | Some EmptyString => []
  | Some path =>
      match write_json h path results with
      | None => ["[INFO] Results saved to " +:+ path]
      | Some e => ["[ERROR] Unable to save results: " +:+ exc_str e]
      end
  end.

(** The file that lines 181-185 write. *)
Definition saved_file (h : host) (output : option string)
    (results : list (gmap string json)) : option (string * list (gmap string json)) :=
  match output with
  | None | Some EmptyString => None
  | Some path =>
      match write_json h path results with
      | None => Some (path, results)
      | Some _ => None
      end
  end.

(** The lines the main thread prints, in their order, in a run over the
    candidates [app_info] that collects the outcomes [results] and in which
    no [print] raises. *)
Definition main_lines (h : host) (args : arguments) (app_info : list app)
    (results : list (gmap string json)) : list string :=
  let found := filter (λ r, status_is r "exists") results in
  (load_app_info h (arg_file args)).1 ++ announce (arg_tenant args) app_info
    ++ found_lines results ++ summary app_info found
    ++ save_line h (arg_output args) results ++ found_listing found.

(** Consecutive instants are at least [d] apart. *)
Definition paced (d : Q) (ts : list Q) : Prop :=
  ∀ i t t', ts !! i = Some t → ts !! S i = Some t' → (t + d <= t')%Q.

(** The block has been left without an exception. *)
Definition completed (s : pool) : Prop := pc s = Left None.

(** The main thread is at or past an exception that leaves the block. *)
Definition unwinding (p : main_pc) : bool :=
  match p with
  | Leaving (Some _) | Left (Some _) => true
  | _ => false
  end.

(** The number of futures there are when the main thread is at [p], [n]
    being the number of candidates. *)
Definition submitted_ok (n : nat) (p : main_pc) (len : nat) : Prop :=
  match p with
  | Submitting i => len = i ∧ i ≤ n
  | Sleeping i _ => len = S i ∧ i < n
  | Collecting _ | Leaving None | Left None => len = n
  | Leaving (Some _) | Left (Some _) => len ≤ n
  end.

(** [results] is the part of [futures] read so far. *)
Definition results_ok (p : main_pc) (futs : list (option (gmap string json)))
    (res : list (gmap string json)) : Prop :=
  match p with
  | Submitting _ | Sleeping _ _ => res = []
  | Collecting j => Some <$> res = take j futs
  | Leaving None | Left None => Some <$> res = futs
  | Leaving (Some _) | Left (Some _) => ∃ j, Some <$> res = take j futs
  end.

(** What is left to do: a bound on the number of steps, other than [Tick],
    that a run can still take. *)
Definition main_weight (n : nat) (p : main_pc) : nat :=
  match p with
  | Submitting i => 4 * (n - i) + n + 4
  | Sleeping i _ => 4 * (n - i) + n + 1
  | Collecting j => (n - j) + 3
  | Leaving _ => 1
  | Left _ => 0
  end.

Definition weight (n : nat) (s : pool) : nat :=
  main_weight n (pc s) + 2 * length (queue s) + size (running s).

Section Invariants.
Variable h : host.
Variable app_info : list app.
Variable tenant : string.
Variable verbose : bool.

(** What holds of every state of a run. *)
Record pool_inv (s : pool) : Prop := PoolInv {
  inv_submitted : submitted_ok (length app_info) (pc s) (length (futures s));
  inv_pending : ∀ i, (i ∈ queue s ∨ i ∈ running s) ↔ futures s !! i = Some None;
  inv_queue : NoDup (queue s);
  inv_disjoint : ∀ i, i ∈ queue s → i ∉ running s;
  inv_done : ∀ i r, futures s !! i = Some (Some r) →
    ∃ a reply, app_info !! i = Some a ∧ r = probe_result h a tenant verbose reply;
  inv_results : results_ok (pc s) (futures s) (results s);
  inv_found : found_apps s = filter (λ r, status_is r "exists") (results s);
  inv_log_nodup : NoDup (net_log s).*1;
  inv_log_dom : ∀ i, i ∈ (net_log s).*1 ↔ i < length (futures s) ∧ i ∉ queue s;
  inv_log_req : ∀ i rq, (i, rq) ∈ net_log s →
    ∃ a, app_info !! i = Some a ∧ rq = token_request (app_client_id a) tenant
}.

(** The futures set so far hold the results for the replies [replies]
    deals to the work items. *)
Definition agrees (replies : nat → http_reply) (s : pool) : Prop :=
  ∀ i r, futures s !! i = Some (Some r) →
    ∃ a, app_info !! i = Some a ∧ r = probe_result h a tenant verbose (replies i).

(** A schedule deals the replies [replies]. *)
Definition deals (replies : nat → http_reply) (sched : list action) : Prop :=
  ∀ i reply, WorkerDone i reply ∈ sched → reply = replies i.
End Invariants.

(** What holds of the clock in every state of a run with the delay [delay]. *)
Record timing_inv (delay : Q) (s : pool) : Prop := TimingInv {
  tim_length : length (submit_times s) = length (futures s);
  tim_past : ∀ t, t ∈ submit_times s → (t <= clock s)%Q;
  tim_paced : paced delay (submit_times s);
  tim_next : ∀ t, last (submit_times s) = Some t →
    match pc s with
    | Submitting _ => (t + delay <= clock s)%Q
    | Sleeping _ wake => (t + delay <= wake)%Q
    | _ => True
    end
}.

(** ** A sample run

    Three candidates read from a CSV file, the first and the last with the
    same identifier; two workers and the default delay.  The probes end in
    the order 1, 2, 0: the second application is not in the tenant, the
    exchange of the third times out, the first is found last. *)

Definition sample_rows : list (gmap string (option string)) :=
  [ {[ "appId" := Some "1b730954"; "displayName" := Some "Portal" ]};
    {[ "appId" := Some "04b07795"; "displayName" := Some "" ]};
    {[ "appId" := Some "1b730954"; "displayName" := Some "Portal" ]} ].

Definition sample_apps : list app :=
  [App "1b730954" "Portal"; App "04b07795" ""; App "1b730954" "Portal"].

(** A host whose file holds [sample_rows] and whose output file cannot be
    written unless [writable]. *)
Definition sample_host (writable : bool) : host :=
  {| py_str := λ v, match v with
                    | JInt n => pretty n
                    | JStr s => s
                    | _ => "?"
                    end;
     str_strip := λ s, s;
     splitext_lower := λ _, ".csv";
     read_lines := λ _, Return ["appId,displayName"; "1b730954,Portal"; "04b07795,";
                                "1b730954,Portal"];
     read_first_line := λ _, Return "appId,displayName";
     dict_reader := λ _ _, Return sample_rows;
     write_json := λ _ _,
       if writable then None
       else Some (Exception "PermissionError" "[Errno 13] Permission denied: 'out.json'");
     print_error := λ _, None;
     sleep_error := λ _, None;
     flush_error := None |}.

(** A host whose file cannot be opened, and one whose file has no row. *)
Definition unreadable_host : host :=
  {| py_str := py_str (sample_host true);
     str_strip := λ s, s;
     splitext_lower := λ _, ".csv";
     read_lines := λ _, Raise (Exception "FileNotFoundError"
                                 "[Errno 2] No such file or directory: 'apps.csv'");
     read_first_line := λ _, Raise (Exception "FileNotFoundError"
                                      "[Errno 2] No such file or directory: 'apps.csv'");
     dict_reader := λ _ _, Raise (Exception "FileNotFoundError"
                                    "[Errno 2] No such file or directory: 'apps.csv'");
     write_json := λ _ _, None;
     print_error := λ _, None;
     sleep_error := λ _, None;
     flush_error := None |}.

Definition empty_host : host :=
  {| py_str := py_str (sample_host true);
     str_strip := λ s, s;
     splitext_lower := λ _, ".csv";
     read_lines := λ _, Return ["appId,displayName"];
     read_first_line := λ _, Return "appId,displayName";
     dict_reader := λ _ _, Return [];
     write_json := λ _ _, None;
     print_error := λ _, None;
     sleep_error := λ _, None;
     flush_error := None |}.

Definition sample_args (workers : Z) : arguments :=
  {| arg_tenant := "contoso.onmicrosoft.com"; arg_file := "apps.csv";
     arg_output := Some "out.json"; arg_workers := workers;
     arg_delay := (1 # 2)%Q; arg_verbose := true |}.

Definition body (code : Z) (description : string) : http_reply :=
  JsonBody (JDict {[ "error" := JStr "invalid_client";
                     "error_description" := JStr description;
                     "error_codes" := JList [JInt code] ]}).

Definition sample_replies (i : nat) : http_reply :=
  match i with
  | 0 => body 7000215 "AADSTS7000215: Invalid client secret provided."
  | 1 => body 700016 "AADSTS700016: Application was not found in the directory."
  | _ => PostRaises (Exception "ConnectTimeout" "connection timed out")
  end.

Definition sample_sched : list action :=
  [ MainStep; WorkerTake; Tick (1 # 2)%Q; MainStep;
    MainStep; WorkerTake; WorkerDone 1 (sample_replies 1); Tick (1 # 2)%Q; MainStep;
    MainStep; WorkerTake; WorkerDone 2 (sample_replies 2); Tick (3 # 4)%Q; MainStep;
    MainStep; WorkerDone 0 (sample_replies 0);
    MainStep; MainStep; MainStep; MainStep; MainStep ].

(** The state in which [sample_sched] leaves the block. *)
Definition sample_final : option pool :=
  exec (sample_host false) sample_apps "contoso.onmicrosoft.com" 2 (1 # 2)%Q true
    sample_sched (pool_init []).

(** The same command line with a negative delay, and a run of the block in
    which the first [time.sleep] raises. *)
Definition negative_delay_args : arguments :=
  {| arg_tenant := "contoso.onmicrosoft.com"; arg_file := "apps.csv";
     arg_output := Some "out.json"; arg_workers := 2;
     arg_delay := (- (1 # 2))%Q; arg_verbose := true |}.

Definition negative_delay_sched : list action :=
  [ MainStep; WorkerTake; WorkerDone 0 (sample_replies 0); MainStep ].

(** A console that cannot encode a lone surrogate: the character U+D800,
    which a JSON body can hold as an escape, and the exception of a [print]
    of a line that holds one. *)
Definition lone_surrogate : string :=
  String (Ascii.ascii_of_nat 237)
    (String (Ascii.ascii_of_nat 160) (String (Ascii.ascii_of_nat 128) EmptyString)).

Fixpoint index_of (needle hay : string) : nat :=
  if String.prefix needle hay then 0
  else match hay with
       | EmptyString => 0
       | String _ rest => S (index_of needle rest)
       end.

Definition strict_host : host :=
  {| py_str := py_str (sample_host true);
     str_strip := str_strip (sample_host true);
     splitext_lower := splitext_lower (sample_host true);
     read_lines := read_lines (sample_host true);
     read_first_line := read_first_line (sample_host true);
     dict_reader := dict_reader (sample_host true);
     write_json := write_json (sample_host true);
     print_error := λ line,
       if contains lone_surrogate line
       then Some (Exception "UnicodeEncodeError"
                    ("'utf-8' codec can't encode character '\ud800' in position "
                       +:+ pretty (index_of lone_surrogate line)
                       +:+ ": surrogates not allowed"))
       else None;
     sleep_error := λ _, None;
     flush_error := None |}.

(** A body whose first code is the string of this character alone. *)
Definition surrogate_reply : http_reply :=
  JsonBody (JDict {[ "error_codes" := JList [JStr lone_surrogate] ]}).

(** A console that is closed: every [print] raises. *)
Definition closed_console_host : host :=
  {| py_str := py_str (sample_host true);
     str_strip := str_strip (sample_host true);
     splitext_lower := splitext_lower (sample_host true);
     read_lines := read_lines (sample_host true);
     read_first_line := read_first_line (sample_host true);
     dict_reader := dict_reader (sample_host true);
     write_json := write_json (sample_host true);
     print_error := λ _, Some (Exception "ValueError" "I/O operation on closed file.");
     sleep_error := λ _, None;
     flush_error := None |}.

(** A clock that counts nanoseconds in 64 bits: [time.sleep] refuses a
    length of [2^63] nanoseconds or more. *)
Definition bounded_clock_host : host :=
  {| py_str := py_str (sample_host true);
     str_strip := str_strip (sample_host true);
     splitext_lower := splitext_lower (sample_host true);
     read_lines := read_lines (sample_host true);
     read_first_line := read_first_line (sample_host true);
     dict_reader := dict_reader (sample_host true);
     write_json := write_json (sample_host true);
     print_error := λ _, None;
     sleep_error := λ d,
       if Qle_bool (inject_Z (2 ^ 63)) (d * inject_Z (10 ^ 9))
          || Qle_bool (d * inject_Z (10 ^ 9)) (inject_Z (- 2 ^ 63))
       then Some (Exception "OverflowError" "timestamp too large to convert to C _PyTime_t")
       else None;
     flush_error := None |}.

(** The sample command line with a delay of ten thousand million seconds. *)
Definition oversized_delay_args : arguments :=
  {| arg_tenant := "contoso.onmicrosoft.com"; arg_file := "apps.csv";
     arg_output := Some "out.json"; arg_workers := 2;
     arg_delay := inject_Z (10 ^ 10); arg_verbose := true |}.

(** ** Further notions and samples *)

(** An action of a thread, as opposed to time passing. *)
Definition is_thread_step (a : action) : bool :=
  match a with
  | Tick _ => false
  | _ => true
  end.

(** The number of steps of threads in a schedule. *)
Definition thread_steps (sched : list action) : nat :=
  length (filter (λ a, is_thread_step a) sched).

(** A host whose file has the extension [ext] and the lines [lines], and
    read as CSV the rows [rows]; [readline] on an empty file gives the empty
    string. *)
Definition file_host (ext : string) (lines : list string)
    (rows : list (gmap string (option string))) : host :=
  {| py_str := py_str (sample_host true);
     str_strip := λ s, s;
     splitext_lower := λ _, ext;
     read_lines := λ _, Return lines;
     read_first_line := λ _, Return (default "" (head lines));
     dict_reader := λ _ _, Return rows;
     write_json := λ _ _, None;
     print_error := λ _, None;
     sleep_error := λ _, None;
     flush_error := None |}.

(** A text file with a blank line, a CSV file whose second row is too short
    for the [appId] column, a CSV file without this column, and two files
    without a known extension. *)
Definition txt_host : host :=
  file_host ".txt" ["1b730954"; ""; "04b07795"] [].

Definition short_row_host : host :=
  file_host ".csv" ["displayName,appId"; "Portal,1b730954"; "Graph"]
    [ {[ "displayName" := Some "Portal"; "appId" := Some "1b730954" ]};
      {[ "displayName" := Some "Graph"; "appId" := None ]} ].

Definition no_column_host : host :=
  file_host ".csv" ["id,name"; "1b730954,Portal"]
    [ {[ "id" := Some "1b730954"; "name" := Some "Portal" ]} ].

Definition tabbed_host : host :=
  file_host ".lst" ["1b730954" +:+ tab +:+ "Portal"] [].

Definition comma_host : host :=
  file_host ".lst" ["1b730954,Portal"; "04b07795,Graph"] [].

(** A row from which the CSV loader makes a candidate: it has an [appId]
    that is not blank. *)
Definition has_app_id (h : host) (row : gmap string (option string)) : bool :=
  match row !! "appId" with
  | Some (Some id) => negb (bool_decide (str_strip h id = ""))
  | _ => false
  end.

(** The candidate made from a row: the stripped [appId], and the stripped
    [displayName], the empty string taking its place when the column is
    missing. *)
Definition row_candidate (h : host) (row : gmap string (option string)) (a : app) : Prop :=
  ∃ id d,
    row !! "appId" = Some (Some id)
    ∧ default (Some "") (row !! "displayName") = Some d
    ∧ a = App (str_strip h id) (str_strip h d).

(** A row too short for the [appId] column. *)
Definition short_row (row : gmap string (option string)) : Prop :=
  row !! "appId" = Some None.

Definition strip_error : exception :=
  Exception "AttributeError" "'NoneType' object has no attribute 'strip'".

(** * Facts *)

(** ** The probe *)

Section ProbeFacts.
Variable h : host.
Variable tenant : string.
Variable verbose : bool.

Lemma result_when_raised a reply e :
  response_json reply ≫= read_error_fields = Raise e →
  probe_result h a tenant verbose reply =
    {[ "client_id" := JStr (app_client_id a);
       "display_name" := JStr (app_display_name a);
       "status" := JStr "error";
       "error_message" := JStr (exc_str e) ]}.
Proof.
  unfold probe_result. simpl. intros E.
  destruct (response_json reply) as [j|e']; simpl in *.
  - destruct (read_error_fields j) as [[c d]|e']; simpl in *; [done|].
    by injection E as ->.
  - by injection E as ->.
Qed.

Lemma result_when_read a reply code description :
  response_json reply ≫= read_error_fields = Return (code, description) →
  debug_raises h verbose (app_client_id a) code = None →
  probe_result h a tenant verbose reply =
    {[ "client_id" := JStr (app_client_id a);
       "display_name" := JStr (app_display_name a);
       "status" := JStr (if py_eq_int code 7000215 then "exists"
                         else if py_eq_int code 700016 then "not_found"
                         else "unknown");
       "error_code" := code;
       "error_description" := description ]}.
Proof.
  unfold probe_result, debug_raises. simpl. intros E Hd.
  destruct (response_json reply) as [j|e']; simpl in *; [|done].
  rewrite E. simpl. unfold debug_print.
  destruct verbose; [rewrite Hd|]; simpl;
    by destruct (py_eq_int code 7000215), (py_eq_int code 700016).
Qed.

(** The [print] of line 49 is inside the [try]. *)
Lemma result_when_print_raises a reply code description e :
  response_json reply ≫= read_error_fields = Return (code, description) →
  debug_raises h verbose (app_client_id a) code = Some e →
  probe_result h a tenant verbose reply =
    {[ "client_id" := JStr (app_client_id a);
       "display_name" := JStr (app_display_name a);
       "status" := JStr "error";
       "error_message" := JStr (exc_str e) ]}.
Proof.
  unfold probe_result, debug_raises. simpl. intros E Hd.
  destruct (response_json reply) as [j|e']; simpl in *; [|done].
  rewrite E. simpl. unfold debug_print.
  destruct verbose; [|done]. by rewrite Hd.
Qed.

(** What the [try] block does: it raises [e], in the exchange, in the
    reading of the fields or in the [print], or it reaches the comparisons
    with the code [code]. *)
Lemma result_cases_dict a reply :
  (∃ e, probe_result h a tenant verbose reply =
          {[ "client_id" := JStr (app_client_id a);
             "display_name" := JStr (app_display_name a);
             "status" := JStr "error";
             "error_message" := JStr (exc_str e) ]})
  ∨ (∃ code description,
       response_json reply ≫= read_error_fields = Return (code, description)
       ∧ debug_raises h verbose (app_client_id a) code = None
       ∧ probe_result h a tenant verbose reply =
           {[ "client_id" := JStr (app_client_id a);
              "display_name" := JStr (app_display_name a);
              "status" := JStr (if py_eq_int code 7000215 then "exists"
                                else if py_eq_int code 700016 then "not_found"
                                else "unknown");
              "error_code" := code;
              "error_description" := description ]}).
Proof.
  destruct (response_json reply ≫= read_error_fields) as [[code description]|e] eqn:E.
  - destruct (debug_raises h verbose (app_client_id a) code) as [e|] eqn:Hd.
    + left. exists e. by apply (result_when_print_raises _ _ _ _ _ E).
    + right. exists code, description. split_and!; [done..|].
      by apply result_when_read.
  - left. exists e. by apply result_when_raised.
Qed.

(** Every reply is of one of the two kinds. *)
Lemma result_cases reply :
  (∃ e, response_json reply ≫= read_error_fields = Raise e)
  ∨ (∃ code description,
       response_json reply ≫= read_error_fields = Return (code, description)).
Proof.
  destruct (response_json reply ≫= read_error_fields) as [[code description]|e]; eauto.
Qed.

Lemma read_first_code m code rest :
  m !! "error_codes" = Some (JList (code :: rest)) →
  read_error_fields (JDict m)
  = Return (code, default (JStr "") (m !! "error_description")).
Proof. intros Hm. unfold read_error_fields. simpl. by rewrite Hm. Qed.

Lemma read_no_codes m :
  m !! "error_codes" = None →
  read_error_fields (JDict m)
  = Return (JInt 0, default (JStr "") (m !! "error_description")).
Proof. intros Hm. unfold read_error_fields. simpl. by rewrite Hm. Qed.

Lemma read_empty_codes m :
  m !! "error_codes" = Some (JList []) →
  read_error_fields (JDict m) = Raise (Exception "IndexError" "list index out of range").
Proof. intros Hm. unfold read_error_fields. simpl. by rewrite Hm. Qed.

Lemma probe_candidate a reply :
  candidate_of (probe_result h a tenant verbose reply) = Some a.
Proof.
  destruct (result_cases_dict a reply) as [[e ->]|(code & description & _ & _ & ->)];
    by destruct a.
Qed.

(** A body without [error_codes] is read as the code 0. *)
Lemma absent_error_codes_is_unknown a m :
  m !! "error_codes" = None →
  debug_raises h verbose (app_client_id a) (JInt 0) = None →
  status_of (probe_result h a tenant verbose (JsonBody (JDict m))) = Some "unknown"
  ∧ probe_result h a tenant verbose (JsonBody (JDict m)) !! "error_code" = Some (JInt 0).
Proof.
  intros Hm Hd.
  by rewrite (result_when_read a (JsonBody (JDict m)) _ _ (read_no_codes m Hm) Hd).
Qed.

Lemma outcome_fields a reply :
  probe_result h a tenant verbose reply !! "client_id" = Some (JStr (app_client_id a))
  ∧ probe_result h a tenant verbose reply !! "display_name"
    = Some (JStr (app_display_name a)).
Proof.
  by destruct (result_cases_dict a reply) as [[e ->]|(code & description & _ & _ & ->)].
Qed.

(** C1: when the fields are read and the [print] of the verbose mode does
    not raise, the status is the one of the code: a code equal to 7000215
    gives "exists", a code equal to 700016 gives "not_found", any other code
    gives "unknown"; when that [print] raises, the [except] of the exchange
    catches its exception and the status is "error" whatever the code is,
    the dict carrying the message of the [print] and no code; and when the
    request or the decoding of the response raises, the status is "error". *)
Theorem status_determined_by_code a reply :
  let r := probe_result h a tenant verbose reply in
  (∀ code description,
     response_json reply ≫= read_error_fields = Return (code, description) →
     match debug_raises h verbose (app_client_id a) code with
     | None =>
         status_of r = Some (if py_eq_int code 7000215 then "exists"
                             else if py_eq_int code 700016 then "not_found"
                             else "unknown")
     | Some e =>
         status_of r = Some "error"
         ∧ r !! "error_message" = Some (JStr (exc_str e))
         ∧ r !! "error_code" = None
     end)
  ∧ (∀ m n rest,
       reply = JsonBody (JDict m) →
       m !! "error_codes" = Some (JList (JInt n :: rest)) →
       debug_raises h verbose (app_client_id a) (JInt n) = None →
       status_of r = Some (if (n =? 7000215)%Z then "exists"
                           else if (n =? 700016)%Z then "not_found"
                           else "unknown"))
  ∧ (∀ e, reply = PostRaises e ∨ reply = JsonRaises e → status_of r = Some "error").
Proof.
  simpl. split_and!.
  - intros code description E.
    destruct (debug_raises h verbose (app_client_id a) code) as [e|] eqn:Hd.
    + by rewrite (result_when_print_raises _ _ _ _ _ E Hd).
    + by rewrite (result_when_read _ _ _ _ E Hd).
  - intros m n rest -> Hm Hd.
    by rewrite (result_when_read a (JsonBody (JDict m)) _ _ (read_first_code m _ _ Hm) Hd).
  - intros e [-> | ->].
    + by rewrite (result_when_raised a (PostRaises e) e).
    + by rewrite (result_when_raised a (JsonRaises e) e).
Qed.

(** C4: on a decoded body whose [error_codes] is the empty list, indexing
    raises and the outcome has the status "error", with the message of the
    [IndexError], and no error code. *)
Theorem empty_error_codes_is_error a m :
  m !! "error_codes" = Some (JList []) →
  let r := probe_result h a tenant verbose (JsonBody (JDict m)) in
  status_of r = Some "error"
  ∧ r !! "error_message" = Some (JStr "list index out of range")
  ∧ r !! "error_code" = None.
Proof.
  intros Hm. simpl. by rewrite (result_when_raised a (JsonBody (JDict m)) _ (read_empty_codes m Hm)).
Qed.

(** C5: whatever the exchange does, the probe returns a dict with one of
    the four statuses; when the request, the decoding or the reading of the
    fields raises, the status is "error" and the dict carries [str(e)]; a
    dict with the status "error" has an [error_message] and neither an
    [error_code] nor an [error_description], and a dict with another status
    has an [error_code] and no [error_message]. *)
Theorem probe_returns_tagged_result a reply :
  let r := probe_result h a tenant verbose reply in
  (∃ s, status_of r = Some s ∧ s ∈ ["exists"; "not_found"; "unknown"; "error"])
  ∧ (∀ e, response_json reply ≫= read_error_fields = Raise e →
       status_of r = Some "error" ∧ r !! "error_message" = Some (JStr (exc_str e)))
  ∧ (status_of r = Some "error" →
       is_Some (r !! "error_message") ∧ r !! "error_code" = None
       ∧ r !! "error_description" = None)
  ∧ (status_of r ≠ Some "error" →
       is_Some (r !! "error_code") ∧ r !! "error_message" = None).
Proof.
  simpl. split_and!.
  - destruct (result_cases_dict a reply) as [[e ->]|(code & description & _ & _ & ->)].
    + exists "error". split; [done|]. set_solver.
    + eexists. split; [done|].
      destruct (py_eq_int code 7000215), (py_eq_int code 700016); set_solver.
  - intros e E. by rewrite (result_when_raised _ _ _ E).
  - destruct (result_cases_dict a reply) as [[e ->]|(code & description & _ & _ & ->)].
    + intros _. split_and!; [by eexists|done|done].
    + intros Hs. exfalso.
      by destruct (py_eq_int code 7000215), (py_eq_int code 700016).
  - destruct (result_cases_dict a reply) as [[e ->]|(code & description & _ & _ & ->)].
    + intros Hs. by destruct Hs.
    + intros _. split; [by eexists|done].
Qed.

(** C10: the dict returned carries the [client_id] and the [display_name]
    the probe was called with, whatever the exchange does. *)
Theorem outcome_carries_its_candidate client_id display_name reply :
  let r := (continue (check_app_existence h client_id tenant display_name verbose) reply).2 in
  r !! "client_id" = Some (JStr client_id)
  ∧ r !! "display_name" = Some (JStr display_name)
  ∧ candidate_of r = Some (App client_id display_name).
Proof.
  cbv zeta. change ((continue (check_app_existence h client_id tenant display_name verbose) reply).2)
    with (probe_result h (App client_id display_name) tenant verbose reply).
  by destruct (result_cases_dict (App client_id display_name) reply)
    as [[e ->]|(code & description & _ & _ & ->)].
Qed.
End ProbeFacts.

(** ** The thread pool *)

Section DispatcherFacts.
Variable h : host.
Variable app_info : list app.
Variable tenant : string.
Variable workers : Z.
Variable delay : Q.
Variable verbose : bool.

Local Notation inv := (pool_inv h app_info tenant verbose).
Local Notation run_step := (step h app_info tenant workers delay verbose).
Local Notation run := (exec h app_info tenant workers delay verbose).

Lemma submitted_ok_bound p len : submitted_ok (length app_info) p len → len ≤ length app_info.
Proof. destruct p as [| | |[]|[]]; simpl; lia. Qed.

Lemma pending_lt s i : inv s → i ∈ queue s ∨ i ∈ running s → i < length (futures s).
Proof.
  intros Hinv Hi. apply (inv_pending _ _ _ _ _ Hinv) in Hi.
  by apply lookup_lt_Some in Hi.
Qed.

Lemma pending_app s i : inv s → i ∈ queue s ∨ i ∈ running s → is_Some (app_info !! i).
Proof.
  intros Hinv Hi. apply lookup_lt_is_Some.
  pose proof (pending_lt _ _ Hinv Hi).
  pose proof (submitted_ok_bound _ _ (inv_submitted _ _ _ _ _ Hinv)). lia.
Qed.

Lemma init_inv out : inv (pool_init out).
Proof.
  constructor; simpl.
  - split; [done|lia].
  - intros i. split; [|done]. intros [Hi|Hi]; [by apply elem_of_nil in Hi|set_solver].
  - constructor.
  - by intros i ?%elem_of_nil.
  - done.
  - done.
  - done.
  - constructor.
  - intros i. split; [by intros ?%elem_of_nil|lia].
  - by intros i rq ?%elem_of_nil.
Qed.

Lemma tick_inv s dt s' : inv s → run_step (Tick dt) s = Some s' → inv s'.
Proof.
  intros [] Hstep. simpl in Hstep.
  destruct (Qle_bool 0 dt); simplify_eq. by constructor.
Qed.

Lemma submit_inv s i :
  inv s → pc s = Submitting i → i < length app_info →
  inv {| clock := clock s; stdout := stdout s; net_log := net_log s;
         queue := queue s ++ [i]; running := running s;
         futures := futures s ++ [None];
         submit_times := submit_times s ++ [clock s];
         pc := after_submit h delay i (clock s);
         results := results s; found_apps := found_apps s |}.
Proof.
  intros Hinv Hpc Hi.
  pose proof Hinv as [Hsub Hpend Hq Hdisj Hdone Hres Hfound Hnd Hdom Hreq].
  rewrite Hpc in Hsub, Hres. simpl in Hsub, Hres. destruct Hsub as [Hlen _].
  assert (Hfresh : ∀ k, k ∈ queue s ∨ k ∈ running s → k < i).
  { intros k Hk%(pending_lt _ _ Hinv). lia. }
  constructor; simpl.
  - unfold after_submit. rewrite length_app. simpl.
    destruct (sleep_error h delay), (Qle_bool 0 delay); simpl; lia.
  - intros k. rewrite elem_of_app, list_elem_of_singleton.
    destruct (decide (k < i)) as [Hlt|Hge].
    + rewrite lookup_app_l by lia. rewrite <- Hpend. split; [|tauto].
      intros [[?| ->]|?]; [tauto|lia|tauto].
    + destruct (decide (k = i)) as [->|Hne].
      * rewrite lookup_app_r, Hlen, Nat.sub_diag by lia. simpl. tauto.
      * rewrite lookup_ge_None_2 by (rewrite length_app; simpl; lia).
        split; [|done]. intros [[Hk| ->]|Hk]; [|done|].
        -- assert (k < i) by (apply Hfresh; auto). lia.
        -- assert (k < i) by (apply Hfresh; auto). lia.
  - apply NoDup_app. split_and!; [done| |apply NoDup_singleton].
    intros k Hk ->%list_elem_of_singleton.
    assert (i < i) by (apply Hfresh; auto). lia.
  - intros k [Hk| ->%list_elem_of_singleton]%elem_of_app; [by apply Hdisj|].
    intros Hk. assert (i < i) by (apply Hfresh; auto). lia.
  - intros k r Hk. apply Hdone.
    apply lookup_app_Some in Hk as [Hk|[_ Hk]]; [done|].
    by apply list_lookup_singleton_Some in Hk as [_ ?].
  - unfold after_submit. rewrite Hres.
    destruct (sleep_error h delay), (Qle_bool 0 delay); simpl; try done; by exists 0.
  - done.
  - done.
  - intros k. rewrite Hdom, length_app, elem_of_app, list_elem_of_singleton. simpl.
    split; [intros [? ?]; split; [lia|intros [?|?]; [done|lia]]|].
    intros [? Hk]. split; [|tauto].
    destruct (decide (k = i)); [tauto|lia].
  - done.
Qed.

Lemma main_step_inv s s' : inv s → main_step h app_info delay s = Some s' → inv s'.
Proof.
  intros Hinv Hstep.
  pose proof Hinv as [Hsub Hpend Hq Hdisj Hdone Hres Hfound Hnd Hdom Hreq].
  unfold main_step in Hstep.
  destruct (pc s) as [i|i wake|j|e|e] eqn:Hpc; simpl in *.
  - destruct (app_info !! i) as [a|] eqn:Ha; simplify_eq.
    + apply lookup_lt_Some in Ha. by apply submit_inv.
    + apply lookup_ge_None in Ha.
      constructor; simpl; [lia|done|done|done|done|by rewrite Hres|done..].
  - destruct (Qle_bool wake (clock s)); simplify_eq.
    constructor; simpl; [lia|done..].
  - destruct (futures s !! j) as [[r|]|] eqn:Hj; simplify_eq.
    + assert (Hread : Some <$> results s ++ [r] = take (S j) (futures s)).
      { rewrite fmap_app, Hres. simpl. by rewrite (take_S_r _ _ _ Hj). }
      destruct (if status_is r "exists" then _ else _) as [raised out].
      simplify_eq.
      constructor; simpl; [destruct raised; simpl; lia|done..| | |done|done|done].
      * destruct raised; [by exists (S j)|done].
      * rewrite filter_app, Hfound. f_equal.
        destruct (status_is r "exists") eqn:E.
        -- rewrite filter_cons_True by (simpl; rewrite E; exact I). done.
        -- rewrite filter_cons_False by (simpl; rewrite E; exact id). done.
    + apply lookup_ge_None in Hj.
      constructor; simpl; [done..| |done|done|done|done].
      by rewrite Hres, take_ge.
  - case_bool_decide; simplify_eq.
    constructor; simpl; [by destruct e|done..| |done|done|done|done].
    by destruct e.
  - done.
Qed.

Lemma take_inv s s' : inv s → run_step WorkerTake s = Some s' → inv s'.
Proof.
  intros Hinv Hstep.
  pose proof Hinv as [Hsub Hpend Hq Hdisj Hdone Hres Hfound Hnd Hdom Hreq].
  simpl in Hstep.
  destruct (queue s) as [|i rest] eqn:Hqueue; [done|].
  destruct (app_info !! i) as [a|] eqn:Ha; [|done].
  case_bool_decide; simplify_eq.
  apply NoDup_cons in Hq as [Hi Hrest].
  assert (Hlt : i < length (futures s)).
  { apply (pending_lt _ _ Hinv). rewrite Hqueue. left. apply list_elem_of_here. }
  constructor; simpl.
  - done.
  - intros k. rewrite <- Hpend, elem_of_cons. set_solver.
  - done.
  - intros k Hk. assert (k ≠ i) by (by intros ->).
    assert (k ∉ running s) by (apply Hdisj; by right). set_solver.
  - done.
  - done.
  - done.
  - rewrite fmap_app. simpl. apply NoDup_app. split_and!; [done| |apply NoDup_singleton].
    intros k Hk ->%list_elem_of_singleton.
    apply Hdom in Hk as [_ Hk]. apply Hk, list_elem_of_here.
  - intros k. rewrite fmap_app, elem_of_app, Hdom, elem_of_cons. simpl.
    rewrite list_elem_of_singleton.
    destruct (decide (k = i)) as [->|]; [tauto|]. tauto.
  - intros k rq [Hk|Hk%list_elem_of_singleton]%elem_of_app; [by apply Hreq|].
    simplify_eq. by exists a.
Qed.

Lemma done_inv s i reply s' : inv s → run_step (WorkerDone i reply) s = Some s' → inv s'.
Proof.
  intros Hinv Hstep.
  pose proof Hinv as [Hsub Hpend Hq Hdisj Hdone Hres Hfound Hnd Hdom Hreq].
  unfold step in Hstep.
  destruct (app_info !! i) as [a|] eqn:Ha; [|done].
  case_bool_decide as Hrun; [|done].
  destruct (continue (probe h tenant verbose a) reply) as [printed result] eqn:Hprobe.
  simplify_eq.
  assert (Hi : futures s !! i = Some None) by (apply Hpend; auto).
  assert (Hlt : i < length (futures s)) by (by apply lookup_lt_Some in Hi).
  assert (Hunread : ∀ res j, Some <$> res = take j (futures s) → j ≤ i).
  { intros res j Heq. destruct (decide (j ≤ i)); [done|].
    assert (Hk : (Some <$> res) !! i = Some None).
    { rewrite Heq, lookup_take_lt by lia. done. }
    rewrite list_lookup_fmap in Hk. by destruct (res !! i). }
  constructor; cbn [pc futures queue running results found_apps net_log].
  - by rewrite length_insert.
  - intros k. destruct (decide (k = i)) as [->|Hne].
    + rewrite list_lookup_insert_eq by done.
      split; [|done]. intros [Hk|Hk]; [by apply Hdisj in Hk|set_solver].
    + rewrite list_lookup_insert_ne by done. rewrite <- Hpend. set_solver.
  - done.
  - intros k Hk. apply Hdisj in Hk. set_solver.
  - intros k r Hk. destruct (decide (k = i)) as [->|Hne].
    + rewrite list_lookup_insert_eq in Hk by done. simplify_eq.
      exists a, reply. split; [done|]. unfold probe_result. fold (probe h tenant verbose a).
      by rewrite Hprobe.
    + rewrite list_lookup_insert_ne in Hk by done. by apply Hdone.
  - destruct (pc s) as [| |j|[]|[]]; simpl in *; try done.
    + rewrite take_insert_ge; [done|]. by eapply Hunread.
    + destruct Hres as [j Hj]. exists j.
      rewrite take_insert_ge; [done|]. by eapply Hunread.
    + exfalso. assert (length (futures s) ≤ i); [|lia].
      eapply Hunread. by rewrite firstn_all.
    + destruct Hres as [j Hj]. exists j.
      rewrite take_insert_ge; [done|]. by eapply Hunread.
    + exfalso. assert (length (futures s) ≤ i); [|lia].
      eapply Hunread. by rewrite firstn_all.
  - done.
  - done.
  - intros k. by rewrite length_insert.
  - done.
Qed.

Lemma step_inv a s s' : inv s → run_step a s = Some s' → inv s'.
Proof.
  destruct a; [apply tick_inv|apply main_step_inv|apply take_inv|apply done_inv].
Qed.

Lemma exec_inv sched s s' : inv s → run sched s = Some s' → inv s'.
Proof.
  revert s. induction sched as [|a sched IH]; intros s Hinv Hrun; simpl in Hrun.
  - by simplify_eq.
  - destruct (run_step a s) as [s1|] eqn:Hstep; [|done].
    eapply IH; [|done]. by eapply step_inv.
Qed.

Lemma run_inv sched out s : run sched (pool_init out) = Some s → inv s.
Proof. apply exec_inv, init_inv. Qed.

Lemma exec_app sched1 sched2 s :
  run (sched1 ++ sched2) s = run sched1 s ≫= run sched2.
Proof.
  revert s. induction sched1 as [|a sched1 IH]; intros s; simpl; [done|].
  by destruct (run_step a s).
Qed.

(** *** The futures hold the results for the replies dealt *)

Lemma step_agrees replies a s s' :
  agrees h app_info tenant verbose replies s →
  (∀ i reply, a = WorkerDone i reply → reply = replies i) →
  run_step a s = Some s' →
  agrees h app_info tenant verbose replies s'.
Proof.
  intros Hag Hdeal Hstep. destruct a as [dt| | |i reply].
  - simpl in Hstep. destruct (Qle_bool 0 dt); by simplify_eq.
  - simpl in Hstep. unfold main_step in Hstep.
    repeat case_match; simplify_eq; try done.
    intros k r Hk. apply Hag. cbn [futures] in Hk.
    apply lookup_app_Some in Hk as [Hk|[_ Hk]]; [done|].
    by apply list_lookup_singleton_Some in Hk as [_ ?].
  - simpl in Hstep. repeat case_match; by simplify_eq.
  - unfold step in Hstep.
    destruct (app_info !! i) as [a|] eqn:Ha; [|done].
    case_bool_decide; [|done].
    destruct (continue (probe h tenant verbose a) reply) as [printed result] eqn:Hprobe.
    simplify_eq. intros k r Hk. cbn [futures] in Hk.
    destruct (decide (k = i)) as [->|Hne].
    + apply list_lookup_insert_Some in Hk as [(_ & ? & _)|[? _]]; [|done].
      simplify_eq. exists a. split; [done|].
      unfold probe_result. fold (probe h tenant verbose a).
      by rewrite <- (Hdeal i reply), Hprobe.
    + rewrite list_lookup_insert_ne in Hk by done. by apply Hag.
Qed.

Lemma exec_agrees replies sched s s' :
  agrees h app_info tenant verbose replies s →
  deals replies sched →
  run sched s = Some s' →
  agrees h app_info tenant verbose replies s'.
Proof.
  revert s. induction sched as [|a sched IH]; intros s Hag Hdeal Hrun; simpl in Hrun.
  - by simplify_eq.
  - destruct (run_step a s) as [s1|] eqn:Hstep; [|done].
    eapply IH; [| |done].
    + eapply step_agrees; [done| |done].
      intros i reply ->. apply Hdeal, list_elem_of_here.
    + intros i reply Hi. apply Hdeal. by right.
Qed.

Lemma init_agrees replies out : agrees h app_info tenant verbose replies (pool_init out).
Proof. by intros i r Hi. Qed.

(** *** The results read so far *)

Lemma results_in_futures s k r :
  inv s → results s !! k = Some r → futures s !! k = Some (Some r).
Proof.
  intros Hinv Hk. pose proof (inv_results _ _ _ _ _ Hinv) as Hres.
  assert ((Some <$> results s) !! k = Some (Some r)) as Hk'
    by (by rewrite list_lookup_fmap, Hk).
  assert (∀ j, Some <$> results s = take j (futures s) → futures s !! k = Some (Some r))
    as Htake.
  { intros j Hj. rewrite Hj in Hk'. by apply lookup_take_Some in Hk' as [? _]. }
  destruct (pc s) as [| |j|[]|[]]; simpl in Hres.
  - by rewrite Hres in Hk.
  - by rewrite Hres in Hk.
  - by eapply Htake.
  - destruct Hres as [j Hj]. by eapply Htake.
  - by rewrite <- Hres.
  - destruct Hres as [j Hj]. by eapply Htake.
  - by rewrite <- Hres.
Qed.

Lemma step_results a s s' :
  run_step a s = Some s' → results s `prefix_of` results s'.
Proof.
  intros Hstep. destruct a as [dt| | |i reply].
  - simpl in Hstep. destruct (Qle_bool 0 dt); by simplify_eq.
  - simpl in Hstep. unfold main_step in Hstep.
    destruct (pc s) as [i|i wake|j|e|e]; [| | | |done].
    + destruct (app_info !! i); by simplify_eq.
    + destruct (Qle_bool wake (clock s)); by simplify_eq.
    + destruct (futures s !! j) as [[r|]|]; [| |by simplify_eq]; [|done].
      destruct (if status_is r "exists" then _ else _) as [raised out].
      simplify_eq. cbn [results]. by apply prefix_app_r.
    + case_bool_decide; by simplify_eq.
  - simpl in Hstep. repeat case_match; by simplify_eq.
  - unfold step in Hstep. repeat case_match; by simplify_eq.
Qed.

Lemma exec_results sched s s' :
  run sched s = Some s' → results s `prefix_of` results s'.
Proof.
  revert s. induction sched as [|a sched IH]; intros s Hrun; simpl in Hrun.
  - by simplify_eq.
  - destruct (run_step a s) as [s1|] eqn:Hstep; [|done].
    etrans; [by eapply step_results|by apply IH].
Qed.

Lemma printable_found rs r :
  printable h (found_lines rs) → r ∈ rs → status_is r "exists" = true →
  print_error h (found_line r) = None.
Proof.
  intros Hp Hr Hs. unfold printable in Hp. rewrite Forall_forall in Hp.
  apply Hp, list_elem_of_fmap. exists r. split; [done|].
  apply list_elem_of_filter. split; [by rewrite Hs|done].
Qed.

Lemma printable_found_subseteq rs rs' :
  rs ⊆ rs' → printable h (found_lines rs') → printable h (found_lines rs).
Proof.
  intros Hsub Hp. apply Forall_forall.
  intros line (r & -> & [Hs Hr]%list_elem_of_filter)%list_elem_of_fmap.
  apply (printable_found rs'); [done|by apply Hsub|by destruct (status_is r "exists")].
Qed.

(** *** No exception when [time.sleep] takes the delay and line 175 prints *)

(** The block is left by an exception only where [time.sleep] or the
    [print] of an application found raises. *)
Lemma step_unwinds a s s' :
  sleep_error h delay = None → Qle_bool 0 delay = true →
  unwinding (pc s) = false → run_step a s = Some s' → unwinding (pc s') = true →
  ∃ r e, r ∈ results s' ∧ status_is r "exists" = true
         ∧ print_error h (found_line r) = Some e.
Proof.
  intros Hsleep Hdelay Hpc Hstep Hun. destruct a as [dt| | |i reply].
  - simpl in Hstep. destruct (Qle_bool 0 dt); simplify_eq. simpl in Hun. congruence.
  - simpl in Hstep. unfold main_step, after_submit, print in Hstep.
    rewrite Hdelay, Hsleep in Hstep.
    destruct (pc s) as [i|i wake|j|e|e]; [| | | |done].
    + destruct (app_info !! i); by simplify_eq.
    + destruct (Qle_bool wake (clock s)); by simplify_eq.
    + destruct (futures s !! j) as [[r|]|]; [| |by simplify_eq]; [|done].
      destruct (status_is r "exists") eqn:Hs; [|by simplify_eq].
      destruct (print_error h (found_line r)) as [e|] eqn:He; [|by simplify_eq].
      simplify_eq. exists r, e. cbn [results]. split_and!; [set_solver|done..].
    + case_bool_decide; simplify_eq. simpl in *. congruence.
  - simpl in Hstep. repeat case_match; simplify_eq; simpl in *; congruence.
  - unfold step in Hstep. repeat case_match; simplify_eq; simpl in *; congruence.
Qed.

Lemma exec_no_unwind sched s s' :
  sleep_error h delay = None → Qle_bool 0 delay = true →
  run sched s = Some s' → printable h (found_lines (results s')) →
  unwinding (pc s) = false → unwinding (pc s') = false.
Proof.
  intros Hsleep Hdelay.
  revert s. induction sched as [|a sched IH]; intros s Hrun Hprint Hpc; simpl in Hrun.
  - by simplify_eq.
  - destruct (run_step a s) as [s1|] eqn:Hstep; [|done].
    eapply IH; [done..|].
    destruct (unwinding (pc s1)) eqn:Hun; [|done].
    destruct (step_unwinds a s s1 Hsleep Hdelay Hpc Hstep Hun) as (r & e & Hr & Hs & He).
    rewrite (printable_found (results s') r) in He; [done|done| |done].
    destruct (exec_results sched s1 s' Hrun) as [more ->]. set_solver.
Qed.

(** *** Every run can be carried on to the end of the block *)

Ltac weigh :=
  unfold weight, after_submit; cbn [pc queue running];
  repeat match goal with H : pc _ = _ |- _ => rewrite H end;
  rewrite ?length_app; repeat case_match; simpl; lia.

Lemma pool_progress replies s :
  inv s → (1 ≤ workers)%Z → ¬ (queue s = [] ∧ running s = ∅) →
  ∃ a s', run_step a s = Some s'
    ∧ weight (length app_info) s' < weight (length app_info) s
    ∧ (∀ i reply, a = WorkerDone i reply → reply = replies i).
Proof.
  intros Hinv Hw Hbusy.
  destruct (decide (running s = ∅)) as [Hrun|Hrun].
  - destruct (queue s) as [|i rest] eqn:Hq; [tauto|].
    destruct (pending_app s i Hinv) as [a Ha].
    { rewrite Hq. left. apply list_elem_of_here. }
    exists WorkerTake. eexists. split_and!.
    + simpl. rewrite Hq, Ha, Hrun, size_empty.
      by rewrite bool_decide_true by lia.
    + unfold weight. cbn [pc queue running]. rewrite Hq, Hrun.
      rewrite union_empty_r_L, size_singleton, size_empty. simpl. lia.
    + done.
  - apply set_choose_L in Hrun as [i Hi].
    destruct (pending_app s i Hinv) as [a Ha]; [auto|].
    destruct (continue (probe h tenant verbose a) (replies i)) as [printed result] eqn:Hprobe.
    exists (WorkerDone i (replies i)). eexists. split_and!.
    + unfold step. rewrite Ha, bool_decide_true, Hprobe by done. done.
    + unfold weight. cbn [pc queue running].
      rewrite size_difference by set_solver. rewrite size_singleton.
      assert (size (running s) ≠ 0); [|lia].
      apply size_non_empty_iff. set_solver.
    + by intros ?? [= -> ->].
Qed.

Lemma progress replies s :
  inv s → (1 ≤ workers)%Z → (∀ e, pc s ≠ Left e) →
  ∃ sched s', run sched s = Some s'
    ∧ weight (length app_info) s' < weight (length app_info) s
    ∧ deals replies sched.
Proof.
  intros Hinv Hw Hpc.
  assert (Hpool : ¬ (queue s = [] ∧ running s = ∅) →
    ∃ sched s', run sched s = Some s'
      ∧ weight (length app_info) s' < weight (length app_info) s
      ∧ deals replies sched).
  { intros Hbusy. destruct (pool_progress replies s Hinv Hw Hbusy) as (a & s' & Hstep & Hlt & Hd).
    exists [a], s'. split_and!; [|done|].
    - simpl. by rewrite Hstep.
    - intros i reply Hi%list_elem_of_singleton. by apply Hd. }
  assert (Hmain : ∀ s', main_step h app_info delay s = Some s' →
    weight (length app_info) s' < weight (length app_info) s →
    ∃ sched s', run sched s = Some s'
      ∧ weight (length app_info) s' < weight (length app_info) s
      ∧ deals replies sched).
  { intros s' Hstep Hlt. exists [MainStep], s'. split_and!; [|done|].
    - simpl. by rewrite Hstep.
    - by intros i reply ?%list_elem_of_singleton. }
  pose proof (inv_submitted _ _ _ _ _ Hinv) as Hsub.
  destruct (pc s) as [i|i wake|j|e|e] eqn:Epc; simpl in Hsub.
  - destruct (app_info !! i) as [a|] eqn:Ha.
    + eapply Hmain.
      * unfold main_step. by rewrite Epc, Ha.
      * apply lookup_lt_Some in Ha. weigh.
    + eapply Hmain.
      * unfold main_step. by rewrite Epc, Ha.
      * weigh.
  - set (dt := if Qle_bool wake (clock s) then 0%Q else (wake - clock s)%Q).
    assert (Hdt : Qle_bool 0 dt = true).
    { unfold dt. destruct (Qle_bool wake (clock s)) eqn:E; [done|].
      apply Qle_bool_iff. destruct (Qlt_le_dec (clock s) wake) as [?|Hle]; [lra|].
      apply Qle_bool_iff in Hle. congruence. }
    assert (Hwake : Qle_bool wake (clock s + dt) = true).
    { apply Qle_bool_iff. unfold dt. destruct (Qle_bool wake (clock s)) eqn:E.
      - apply Qle_bool_iff in E. lra.
      - lra. }
    exists [Tick dt; MainStep]. eexists. split_and!.
    + simpl. rewrite Hdt. simpl. unfold main_step. cbn [pc clock].
      rewrite Epc, Hwake. done.
    + weigh.
    + intros k reply Hk. apply elem_of_cons in Hk as [?|Hk]; [done|].
      by apply list_elem_of_singleton in Hk.
  - destruct (futures s !! j) as [[r|]|] eqn:Hj.
    + assert (∃ s', main_step h app_info delay s = Some s'
                ∧ weight (length app_info) s' < weight (length app_info) s)
        as (s' & Hstep & Hlt); [|by eapply Hmain].
      apply lookup_lt_Some in Hj as Hlt.
      unfold main_step. rewrite Epc, Hj. unfold print.
      destruct (status_is r "exists"); [destruct (print_error h (found_line r))|];
        (eexists; split; [done|]); weigh.
    + apply Hpool. intros [Hq Hrun].
      apply (inv_pending _ _ _ _ _ Hinv) in Hj. rewrite Hq, Hrun in Hj.
      destruct Hj as [Hj|Hj]; [by apply elem_of_nil in Hj|set_solver].
    + eapply Hmain.
      * unfold main_step. by rewrite Epc, Hj.
      * weigh.
  - destruct (decide (queue s = [] ∧ running s = ∅)) as [Hidle|Hbusy]; [|by apply Hpool].
    eapply Hmain.
    + unfold main_step. by rewrite Epc, bool_decide_true.
    + weigh.
  - by destruct (Hpc e).
Qed.

Lemma finish replies w s :
  weight (length app_info) s ≤ w → inv s → (1 ≤ workers)%Z →
  ∃ sched s', run sched s = Some s' ∧ (∃ e, pc s' = Left e) ∧ deals replies sched.
Proof.
  revert s. induction w as [|w IH]; intros s Hle Hinv Hw.
  - exists [], s. split_and!; [done| |by intros ?? ?%elem_of_nil].
    unfold weight in Hle. destruct (pc s) as [| | | |e]; simpl in Hle; try lia. by exists e.
  - destruct (pc s) as [i|i wake|j|e|e] eqn:Epc;
      [| | | |exists [], s; split_and!; [done|by exists e|by intros ?? ?%elem_of_nil]].
    all: destruct (progress replies s Hinv Hw) as (sched1 & s1 & Hrun1 & Hlt & Hd1);
      [by rewrite Epc|].
    all: destruct (IH s1) as (sched2 & s2 & Hrun2 & Hend & Hd2);
      [lia|by eapply exec_inv|done|].
    all: exists (sched1 ++ sched2), s2; split_and!; [|done|].
    all: try (rewrite exec_app, Hrun1; done).
    all: intros k reply [?|?]%elem_of_app; auto.
Qed.

(** *** The clock *)

Lemma paced_snoc ts t :
  paced delay ts → (∀ t0, last ts = Some t0 → (t0 + delay <= t)%Q) →
  paced delay (ts ++ [t]).
Proof.
  intros Hp Hlast i t1 t2 H1 H2.
  apply lookup_app_Some in H2 as [H2|[Hge H2]].
  - apply lookup_lt_Some in H2 as Hlt.
    rewrite lookup_app_l in H1 by lia. by eapply Hp.
  - apply list_lookup_singleton_Some in H2 as [Hi ->].
    assert (S i = length ts) as Hlen by lia.
    rewrite lookup_app_l in H1 by lia.
    apply Hlast. rewrite last_lookup, <- Hlen. done.
Qed.

Lemma init_timing out : timing_inv delay (pool_init out).
Proof.
  constructor; simpl; [done|by intros t ?%elem_of_nil|by intros i t t' ?|done].
Qed.

Lemma step_timing a s s' :
  timing_inv delay s → run_step a s = Some s' → timing_inv delay s'.
Proof.
  intros [Hlen Hpast Hpaced Hnext] Hstep. destruct a as [dt| | |i reply].
  - simpl in Hstep. destruct (Qle_bool 0 dt) eqn:Hdt; simplify_eq.
    apply Qle_bool_iff in Hdt.
    constructor; cbn [pc clock futures submit_times]; [done| |done|].
    + intros t Ht. apply Hpast in Ht. lra.
    + intros t Ht. apply Hnext in Ht. destruct (pc s); [lra|done..].
  - simpl in Hstep. unfold main_step in Hstep.
    destruct (pc s) as [i|i wake|j|e|e] eqn:Epc.
    + destruct (app_info !! i); simplify_eq.
      * constructor; cbn [pc clock futures submit_times].
        -- rewrite !length_app. simpl. lia.
        -- intros t [Ht|Ht%list_elem_of_singleton]%elem_of_app; [by apply Hpast|].
           subst. apply Qle_refl.
        -- by apply paced_snoc.
        -- intros t Ht. rewrite last_snoc in Ht. simplify_eq.
           unfold after_submit.
           destruct (sleep_error h delay); [done|].
           destruct (Qle_bool 0 delay); [apply Qle_refl|done].
      * by constructor.
    + destruct (Qle_bool wake (clock s)) eqn:Hw; simplify_eq.
      apply Qle_bool_iff in Hw.
      constructor; cbn [pc clock futures submit_times]; [done..|].
      intros t Ht. apply Hnext in Ht. lra.
    + destruct (futures s !! j) as [[r|]|]; simplify_eq; [|by constructor].
      destruct (if status_is r "exists" then _ else _) as [raised out].
      simplify_eq. constructor; cbn [pc clock futures submit_times]; [done..|].
      by destruct raised.
    + case_bool_decide; simplify_eq. by constructor.
    + done.
  - simpl in Hstep.
    destruct (queue s) as [|i rest]; [done|].
    destruct (app_info !! i); [|done].
    case_bool_decide; simplify_eq. by constructor.
  - unfold step in Hstep.
    destruct (app_info !! i) as [a|]; [|done].
    case_bool_decide; [|done].
    destruct (continue (probe h tenant verbose a) reply) as [printed result].
    simplify_eq.
    constructor; cbn [pc clock futures submit_times]; [|done..].
    by rewrite length_insert.
Qed.

Lemma run_timing sched out s : run sched (pool_init out) = Some s → timing_inv delay s.
Proof.
  assert (∀ s0, timing_inv delay s0 → run sched s0 = Some s → timing_inv delay s) as Hgen.
  { induction sched as [|a sched IH]; intros s0 Ht Hrun; simpl in Hrun.
    - by simplify_eq.
    - destruct (run_step a s0) as [s1|] eqn:Hstep; [|done].
      eapply IH; [|done]. by eapply step_timing. }
  apply Hgen, init_timing.
Qed.

Lemma paced_span ts i t0 ti :
  paced delay ts → ts !! 0 = Some t0 → ts !! i = Some ti →
  (t0 + inject_Z (Z.of_nat i) * delay <= ti)%Q.
Proof.
  intros Hp H0. revert ti. induction i as [|i IH]; intros ti Hi.
  - rewrite H0 in Hi. injection Hi as <-.
    change (inject_Z (Z.of_nat 0)) with 0%Q. lra.
  - destruct (ts !! i) as [t|] eqn:Ht.
    + specialize (IH t eq_refl). pose proof (Hp i t ti Ht Hi).
      rewrite Nat2Z.inj_succ. unfold Z.succ. rewrite inject_Z_plus.
      change (inject_Z 1) with 1%Q. lra.
    + apply lookup_ge_None in Ht. apply lookup_lt_Some in Hi. lia.
Qed.

(** *** At the end of the block *)

Lemma completed_futures s : inv s → completed s → Some <$> results s = futures s.
Proof.
  intros Hinv Hc. pose proof (inv_results _ _ _ _ _ Hinv) as Hres.
  by rewrite Hc in Hres.
Qed.

Lemma completed_length s : inv s → completed s → length (results s) = length app_info.
Proof.
  intros Hinv Hc. pose proof (inv_submitted _ _ _ _ _ Hinv) as Hsub.
  rewrite Hc in Hsub. simpl in Hsub.
  by rewrite <- Hsub, <- (completed_futures s Hinv Hc), length_fmap.
Qed.

Lemma completed_lookup s i r :
  inv s → completed s → results s !! i = Some r → futures s !! i = Some (Some r).
Proof.
  intros Hinv Hc Hi. rewrite <- (completed_futures s Hinv Hc), list_lookup_fmap, Hi. done.
Qed.

Lemma completed_idle s : inv s → completed s → queue s = [] ∧ running s = ∅.
Proof.
  intros Hinv Hc.
  assert (Hnone : ∀ i, ¬ (i ∈ queue s ∨ i ∈ running s)).
  { intros i Hi%(inv_pending _ _ _ _ _ Hinv).
    rewrite <- (completed_futures s Hinv Hc), list_lookup_fmap in Hi.
    by destruct (results s !! i). }
  split.
  - destruct (queue s) as [|i rest]; [done|].
    destruct (Hnone i). left. apply list_elem_of_here.
  - apply set_eq. intros i. split; [|set_solver]. intros Hi. destruct (Hnone i). auto.
Qed.

Lemma completed_results s :
  inv s → completed s →
  Forall2 (λ a r, ∃ reply, r = probe_result h a tenant verbose reply) app_info (results s).
Proof.
  intros Hinv Hc. apply Forall2_same_length_lookup. split.
  - by rewrite completed_length.
  - intros i a r Ha Hr. apply (completed_lookup s i r Hinv Hc) in Hr.
    apply (inv_done _ _ _ _ _ Hinv) in Hr as (a' & reply & Ha' & ->).
    simplify_eq. by exists reply.
Qed.

Lemma completed_dealt replies s :
  inv s → agrees h app_info tenant verbose replies s → completed s →
  results s = outcomes_for h app_info tenant verbose replies.
Proof.
  intros Hinv Hag Hc. apply list_eq. intros i. unfold outcomes_for.
  rewrite list_lookup_imap.
  destruct (results s !! i) as [r|] eqn:Hr.
  - apply (completed_lookup s i r Hinv Hc) in Hr.
    apply Hag in Hr as (a & Ha & ->). by rewrite Ha.
  - apply lookup_ge_None in Hr. rewrite completed_length in Hr by done.
    apply lookup_ge_None in Hr. by rewrite Hr.
Qed.

Lemma dealt_results replies s r :
  inv s → agrees h app_info tenant verbose replies s → r ∈ results s →
  r ∈ outcomes_for h app_info tenant verbose replies.
Proof.
  intros Hinv Hag [k Hk]%list_elem_of_lookup.
  apply (results_in_futures s k r Hinv) in Hk.
  apply Hag in Hk as (a & Ha & ->).
  apply list_elem_of_lookup. exists k. unfold outcomes_for.
  by rewrite list_lookup_imap, Ha.
Qed.

Lemma completes replies out :
  (1 ≤ workers)%Z → sleep_error h delay = None → (0 <= delay)%Q →
  printable h (found_lines (outcomes_for h app_info tenant verbose replies)) →
  ∃ sched s, run sched (pool_init out) = Some s ∧ completed s ∧ deals replies sched.
Proof.
  intros Hw Hsleep Hd Hprint.
  destruct (finish replies _ (pool_init out) (le_n _) (init_inv out) Hw)
    as (sched & s & Hrun & [e He] & Hdeals).
  exists sched, s. split_and!; [done| |done].
  apply Qle_bool_iff in Hd.
  assert (printable h (found_lines (results s))) as Hfound.
  { apply (printable_found_subseteq _ (outcomes_for h app_info tenant verbose replies));
      [|done].
    intros r Hr. eapply dealt_results; [by eapply run_inv| |done].
    eapply exec_agrees; [apply init_agrees|done|done]. }
  pose proof (exec_no_unwind sched (pool_init out) s Hsleep Hd Hrun Hfound eq_refl) as Hnu.
  unfold completed. rewrite He in Hnu |- *. by destruct e.
Qed.

Lemma log_requests s :
  inv s → completed s →
  (net_log s).*2 ≡ₚ (λ a, token_request (app_client_id a) tenant) <$> app_info.
Proof.
  intros Hinv Hc.
  set (req_at := λ i, from_option (λ a, token_request (app_client_id a) tenant)
                        (token_request "" tenant) (app_info !! i)).
  assert (Hsnd : (net_log s).*2 = req_at <$> (net_log s).*1).
  { pose proof (inv_log_req _ _ _ _ _ Hinv) as Hreq.
    induction (net_log s) as [|[i rq] l IH]; [done|].
    simpl. f_equal.
    - destruct (Hreq i rq) as (a & Ha & ->); [apply list_elem_of_here|].
      unfold req_at. by rewrite Ha.
    - apply IH. intros k rq' Hk. apply Hreq. by right. }
  assert (Hidx : (net_log s).*1 ≡ₚ seq 0 (length app_info)).
  { apply NoDup_Permutation; [apply (inv_log_nodup _ _ _ _ _ Hinv)|apply NoDup_seq|].
    intros i. rewrite (inv_log_dom _ _ _ _ _ Hinv), elem_of_seq.
    destruct (completed_idle s Hinv Hc) as [-> _].
    pose proof (inv_submitted _ _ _ _ _ Hinv) as Hsub. rewrite Hc in Hsub. simpl in Hsub.
    rewrite Hsub. split; [lia|]. intros [_ ?]. split; [lia|]. by intros ?%elem_of_nil. }
  rewrite Hsnd, Hidx.
  enough (req_at <$> seq 0 (length app_info)
          = (λ a, token_request (app_client_id a) tenant) <$> app_info) as -> by done.
  apply list_eq. intros i.
  rewrite !list_lookup_fmap. destruct (decide (i < length app_info)) as [Hlt|Hge].
  - rewrite lookup_seq_lt by done. simpl. unfold req_at.
    destruct (lookup_lt_is_Some_2 _ _ Hlt) as [a Ha]. by rewrite Ha.
  - rewrite lookup_seq_ge by lia. by rewrite lookup_ge_None_2 by lia.
Qed.

Lemma candidates_of_results (apps : list app) (rs : list (gmap string json)) :
  Forall2 (λ a r, ∃ reply, r = probe_result h a tenant verbose reply) apps rs →
  candidate_of <$> rs = Some <$> apps.
Proof.
  induction 1 as [|a r apps rs [reply ->] _ IH]; [done|].
  by rewrite !fmap_cons, probe_candidate, IH.
Qed.

(** *** The claims on the dispatch loop *)

(** C2: for every worker count of at least 1, whatever the interleaving of
    the threads and so whatever the order in which the probes end, the
    list [results] with which the block is left lists the candidates in
    the order of [app_info]; and when [time.sleep] takes the delay, the
    block can be run to its end for every way the exchanges can end for
    which the lines of the applications found can be printed. *)
Theorem results_follow_input_order :
  (1 ≤ workers)%Z →
  (∀ out sched s,
     run sched (pool_init out) = Some s → completed s →
     candidate_of <$> results s = Some <$> app_info)
  ∧ (sleep_error h delay = None → (0 <= delay)%Q →
     ∀ out replies,
       printable h (found_lines (outcomes_for h app_info tenant verbose replies)) →
       ∃ sched s, run sched (pool_init out) = Some s ∧ completed s ∧ deals replies sched
         ∧ candidate_of <$> results s = Some <$> app_info).
Proof.
  intros Hw.
  assert (Hall : ∀ out sched s,
     run sched (pool_init out) = Some s → completed s →
     candidate_of <$> results s = Some <$> app_info).
  { intros out sched s Hrun Hc. pose proof (run_inv sched out s Hrun) as Hinv.
    by apply candidates_of_results, completed_results. }
  split; [done|].
  intros Hsleep Hd out replies Hprint.
  destruct (completes replies out Hw Hsleep Hd Hprint) as (sched & s & Hrun & Hc & Hdeals).
  exists sched, s. split_and!; [done..|]. by eapply Hall.
Qed.

(** C3: the list [results] with which the block is left has one entry per
    candidate, entry [i] being what the probe of candidate [i] returned;
    and when [time.sleep] takes the delay, for every way the exchanges can
    end, transport failures included, for which the lines of the
    applications found can be printed, there is such a run, in which entry
    [i] of [results] is the outcome of candidate [i] for the reply to its
    request. *)
Theorem one_outcome_per_candidate :
  (∀ out sched s,
     run sched (pool_init out) = Some s → completed s →
     length (results s) = length app_info
     ∧ Forall2 (λ a r, ∃ reply, r = probe_result h a tenant verbose reply)
         app_info (results s))
  ∧ ((1 ≤ workers)%Z → sleep_error h delay = None → (0 <= delay)%Q →
     ∀ out replies,
       printable h (found_lines (outcomes_for h app_info tenant verbose replies)) →
       ∃ sched s, run sched (pool_init out) = Some s ∧ completed s
         ∧ length (results s) = length app_info
         ∧ ∀ i a, app_info !! i = Some a →
             results s !! i = Some (probe_result h a tenant verbose (replies i))).
Proof.
  split.
  - intros out sched s Hrun Hc. pose proof (run_inv sched out s Hrun) as Hinv.
    split; [by apply completed_length|by apply completed_results].
  - intros Hw Hsleep Hd out replies Hprint.
    destruct (completes replies out Hw Hsleep Hd Hprint) as (sched & s & Hrun & Hc & Hdeals).
    pose proof (run_inv sched out s Hrun) as Hinv.
    exists sched, s. split_and!; [done..|by apply completed_length|].
    intros i a Ha. rewrite (completed_dealt replies s); [|done| |done].
    + unfold outcomes_for. by rewrite list_lookup_imap, Ha.
    + eapply exec_agrees; [apply init_agrees|done|done].
Qed.

(** C6: with a delay [d > 0], in every state of every run, whatever the
    worker count, two consecutive calls of [executor.submit] are at least
    [d] apart, so that the last of [k] submissions is at least [(k-1)*d]
    after the first, and when the block is left every candidate has been
    submitted; and when [time.sleep] takes the delay there is, with at
    least one worker and for every way the exchanges can end for which the
    lines of the applications found can be printed, a run to the end of the
    block, in which every candidate is submitted. *)
Theorem submissions_are_paced :
  (0 < delay)%Q →
  (∀ out sched s,
     run sched (pool_init out) = Some s →
     paced delay (submit_times s)
     ∧ (∀ t0 tl, head (submit_times s) = Some t0 → last (submit_times s) = Some tl →
          (inject_Z (Z.of_nat (length (submit_times s)) - 1) * delay <= tl - t0)%Q)
     ∧ (completed s → length (submit_times s) = length app_info))
  ∧ ((1 ≤ workers)%Z → sleep_error h delay = None →
     ∀ out replies,
       printable h (found_lines (outcomes_for h app_info tenant verbose replies)) →
       ∃ sched s, run sched (pool_init out) = Some s ∧ completed s
         ∧ deals replies sched
         ∧ length (submit_times s) = length app_info
         ∧ paced delay (submit_times s)).
Proof.
  intros Hd.
  assert (Hall : ∀ out sched s,
     run sched (pool_init out) = Some s →
     paced delay (submit_times s)
     ∧ (∀ t0 tl, head (submit_times s) = Some t0 → last (submit_times s) = Some tl →
          (inject_Z (Z.of_nat (length (submit_times s)) - 1) * delay <= tl - t0)%Q)
     ∧ (completed s → length (submit_times s) = length app_info)).
  { intros out sched s Hrun.
    pose proof (run_timing sched out s Hrun) as [Hlen Hpast Hpaced Hnext].
    split_and!.
    - done.
    - intros t0 tl H0 Hl. rewrite head_lookup in H0. rewrite last_lookup in Hl.
      pose proof (paced_span _ _ _ _ Hpaced H0 Hl) as Hspan.
      assert (length (submit_times s) ≠ 0) by (by destruct (submit_times s)).
      replace (Z.of_nat (length (submit_times s)) - 1)%Z
        with (Z.of_nat (pred (length (submit_times s)))) by lia.
      lra.
    - intros Hc. pose proof (inv_submitted _ _ _ _ _ (run_inv sched out s Hrun)) as Hsub.
      rewrite Hc in Hsub. simpl in Hsub. by rewrite Hlen. }
  split; [done|].
  intros Hw Hsleep out replies Hprint.
  destruct (completes replies out Hw Hsleep (Qlt_le_weak _ _ Hd) Hprint)
    as (sched & s & Hrun & Hc & Hdeals).
  destruct (Hall out sched s Hrun) as (Hpaced & _ & Hsub).
  exists sched, s. split_and!; [done..|by apply Hsub|done].
Qed.

(** C9: when the candidates [i] and [j] have the same identifier, every
    run to the end of the block sends one request per candidate, one for
    [i] and one for [j] among them, and [results] has an entry for each;
    and when [time.sleep] takes the delay, for every way the exchanges can
    end for which the lines of the applications found can be printed there
    is a run in which the entry of [i] is made from the reply to [i] and
    the entry of [j] from the reply to [j]. *)
Theorem duplicates_are_probed_twice i j a b :
  i ≠ j → app_info !! i = Some a → app_info !! j = Some b →
  app_client_id a = app_client_id b →
  (∀ out sched s,
     run sched (pool_init out) = Some s → completed s →
     (net_log s).*2 ≡ₚ (λ c, token_request (app_client_id c) tenant) <$> app_info
     ∧ (i, token_request (app_client_id a) tenant) ∈ net_log s
     ∧ (j, token_request (app_client_id a) tenant) ∈ net_log s
     ∧ is_Some (results s !! i) ∧ is_Some (results s !! j))
  ∧ ((1 ≤ workers)%Z → sleep_error h delay = None → (0 <= delay)%Q →
     ∀ out replies,
       printable h (found_lines (outcomes_for h app_info tenant verbose replies)) →
       ∃ sched s, run sched (pool_init out) = Some s ∧ completed s
         ∧ results s !! i = Some (probe_result h a tenant verbose (replies i))
         ∧ results s !! j = Some (probe_result h b tenant verbose (replies j))).
Proof.
  intros Hij Ha Hb Hid. split.
  - intros out sched s Hrun Hc. pose proof (run_inv sched out s Hrun) as Hinv.
    assert (Hsent : ∀ k c, app_info !! k = Some c →
              (k, token_request (app_client_id c) tenant) ∈ net_log s).
    { intros k c Hk.
      assert (k ∈ (net_log s).*1) as Hin.
      { apply (inv_log_dom _ _ _ _ _ Hinv).
        destruct (completed_idle s Hinv Hc) as [-> _].
        pose proof (inv_submitted _ _ _ _ _ Hinv) as Hsub.
        rewrite Hc in Hsub. simpl in Hsub. rewrite Hsub.
        split; [by eapply lookup_lt_Some|by intros ?%elem_of_nil]. }
      apply list_elem_of_fmap in Hin as ([k' rq] & -> & Hin). simpl in *.
      destruct (inv_log_req _ _ _ _ _ Hinv _ _ Hin) as (c' & Hc' & Hrq).
      by simplify_eq. }
    split_and!.
    + by apply log_requests.
    + by apply Hsent.
    + rewrite Hid. by apply Hsent.
    + apply lookup_lt_is_Some. rewrite completed_length by done. by eapply lookup_lt_Some.
    + apply lookup_lt_is_Some. rewrite completed_length by done. by eapply lookup_lt_Some.
  - intros Hw Hsleep Hd out replies Hprint.
    destruct (completes replies out Hw Hsleep Hd Hprint) as (sched & s & Hrun & Hc & Hdeals).
    exists sched, s. split_and!; [done..| |].
    + rewrite (completed_dealt replies s); [|by eapply run_inv| |done].
      * unfold outcomes_for. by rewrite list_lookup_imap, Ha.
      * eapply exec_agrees; [apply init_agrees|done|done].
    + rewrite (completed_dealt replies s); [|by eapply run_inv| |done].
      * unfold outcomes_for. by rewrite list_lookup_imap, Hb.
      * eapply exec_agrees; [apply init_agrees|done|done].
Qed.
End DispatcherFacts.

(** ** The console *)

Section ConsoleFacts.
Variable h : host.

Lemma prints_app lines1 lines2 out :
  prints h (lines1 ++ lines2) out
  = match prints h lines1 out with
    | (Some e, out') => (Some e, out')
    | (None, out') => prints h lines2 out'
    end.
Proof.
  revert out. induction lines1 as [|line lines1 IH]; intros out; simpl; [done|].
  by destruct (print_error h line).
Qed.

Lemma prints_printable lines out :
  printable h lines → prints h lines out = (None, out ++ lines).
Proof.
  intros Hp. revert out. induction Hp as [|line lines Hline _ IH]; intros out; simpl.
  - by rewrite app_nil_r.
  - rewrite Hline, IH. by rewrite <- app_assoc.
Qed.

Lemma prints_returned lines out out' :
  prints h lines out = (None, out') → printable h lines ∧ out' = out ++ lines.
Proof.
  revert out. induction lines as [|line lines IH]; intros out; simpl.
  - intros [= <-]. split; [constructor|by rewrite app_nil_r].
  - destruct (print_error h line) eqn:Hline; [done|].
    intros [Hp ->]%IH. split; [by constructor|by rewrite <- app_assoc].
Qed.

Lemma print_printable line out :
  print_error h line = None → print h line out = (None, out ++ [line]).
Proof. unfold print. by intros ->. Qed.

Lemma printable_app lines1 lines2 :
  printable h (lines1 ++ lines2) ↔ printable h lines1 ∧ printable h lines2.
Proof. apply Forall_app. Qed.

Lemma exit_with_fields line out :
  exit_code (ended (exit_with h line out)) = 1%Z
  ∧ requests_sent (exit_with h line out) = []
  ∧ outcomes (exit_with h line out) = []
  ∧ written (exit_with h line out) = None.
Proof. unfold exit_with, print. by destruct (print_error h line). Qed.

Lemma exit_with_printed line out :
  print_error h line = None →
  exit_with h line out
  = {| ended := SysExit 1; console := out ++ [line];
       requests_sent := []; outcomes := []; written := None |}.
Proof. unfold exit_with, print. by intros ->. Qed.

Lemma save_results_printed output results out :
  printable h (save_line h output results) →
  save_results h output results out
  = (None, out ++ save_line h output results, saved_file h output results).
Proof.
  unfold save_results, save_line, saved_file.
  destruct output as [[|c path]|]; [by rewrite app_nil_r| |by rewrite app_nil_r].
  destruct (write_json h (String c path) results) as [e|].
  - intros Hp. apply Forall_cons in Hp as [Hp _]. by rewrite (print_printable _ _ Hp).
  - intros Hp. apply Forall_cons in Hp as [Hp _]. by rewrite Hp.
Qed.
End ConsoleFacts.

(** ** [main] *)

Section MainFacts.
Variable h : host.
Variable args : arguments.

Local Notation loading := (load_app_info h (arg_file args)).
Local Notation run_block apps :=
  (exec h apps (arg_tenant args) (arg_workers args) (arg_delay args) (arg_verbose args)).
Local Notation found_in rs := (filter (λ r, status_is r "exists") rs).

(** The exception of the [try] of lines 121-140 ends the process with the
    status 1, whether the line that reports it can be printed or not. *)
Lemma main_unreadable e sched :
  loading.2 = Raise e →
  ∃ p, main h args sched = Some p ∧ exit_code (ended p) = 1%Z ∧ requests_sent p = []
       ∧ outcomes p = [] ∧ written p = None.
Proof.
  unfold main. destruct loading as [lines loaded]. simpl. intros ->.
  destruct (prints h lines []) as [[e'|] out]; eexists; (split; [done|]);
    apply exit_with_fields.
Qed.

Lemma main_unreadable_printed e sched :
  loading.2 = Raise e →
  printable h (loading.1 ++ ["Error: Unable to read file: " +:+ exc_str e]) →
  main h args sched
  = Some {| ended := SysExit 1;
            console := loading.1 ++ ["Error: Unable to read file: " +:+ exc_str e];
            requests_sent := []; outcomes := []; written := None |}.
Proof.
  unfold main. destruct loading as [lines loaded]. simpl.
  intros -> [Hl Hm]%printable_app. apply Forall_cons in Hm as [Hm _].
  rewrite (prints_printable h _ _ Hl). simpl. by rewrite (exit_with_printed h _ _ Hm).
Qed.

Lemma main_empty sched :
  loading.2 = Return [] →
  ∃ p, main h args sched = Some p ∧ exit_code (ended p) = 1%Z ∧ requests_sent p = []
       ∧ outcomes p = [] ∧ written p = None.
Proof.
  unfold main. destruct loading as [lines loaded]. simpl. intros ->.
  destruct (prints h lines []) as [[e'|] out]; eexists; (split; [done|]);
    apply exit_with_fields.
Qed.

Lemma main_empty_printed sched :
  loading.2 = Return [] →
  printable h (loading.1 ++ ["Error: No valid application ID data found"]) →
  main h args sched
  = Some {| ended := SysExit 1;
            console := loading.1 ++ ["Error: No valid application ID data found"];
            requests_sent := []; outcomes := []; written := None |}.
Proof.
  unfold main. destruct loading as [lines loaded]. simpl.
  intros -> [Hl Hm]%printable_app. apply Forall_cons in Hm as [Hm _].
  rewrite (prints_printable h _ _ Hl). simpl. by rewrite (exit_with_printed h _ _ Hm).
Qed.

(** With candidates loaded, the process ends before the block when one of
    the lines printed up to there raises, and enters the block otherwise. *)
Lemma main_loaded_cases apps sched :
  loading.2 = Return apps → apps ≠ [] →
  (∃ p, main h args sched = Some p ∧ exit_code (ended p) = 1%Z ∧ requests_sent p = []
        ∧ outcomes p = [] ∧ written p = None)
  ∨ (printable h (loading.1 ++ announce (arg_tenant args) apps)
     ∧ main h args sched
       = match ThreadPoolExecutor (arg_workers args) with
         | Raise e =>
             Some (uncaught e (loading.1 ++ announce (arg_tenant args) apps) [] [] None)
         | Return _ =>
             s ← run_block apps sched
                   (pool_init (loading.1 ++ announce (arg_tenant args) apps));
             match pc s with
             | Left None => Some (report h args apps s)
             | Left (Some e) => Some (uncaught e (stdout s) (net_log s).*2 (results s) None)
             | _ => None
             end
         end).
Proof.
  unfold main. destruct loading as [lines loaded]. cbn [fst snd]. intros -> Hne.
  cbv beta iota zeta.
  destruct (prints h lines []) as [[e|] out] eqn:Hl; cbv beta iota zeta.
  - left. eexists. split; [done|]. apply exit_with_fields.
  - apply prints_returned in Hl as [Hl ->]. rewrite app_nil_l.
    destruct apps as [|a apps]; [done|].
    destruct (prints h (announce (arg_tenant args) (a :: apps)) lines) as [[e|] out] eqn:Ha.
    + left. by eexists.
    + apply prints_returned in Ha as [Ha ->]. right.
      split; [by apply printable_app|done].
Qed.

Lemma main_loaded apps sched :
  loading.2 = Return apps → apps ≠ [] →
  printable h (loading.1 ++ announce (arg_tenant args) apps) →
  main h args sched
  = match ThreadPoolExecutor (arg_workers args) with
    | Raise e =>
        Some (uncaught e (loading.1 ++ announce (arg_tenant args) apps) [] [] None)
    | Return _ =>
        s ← run_block apps sched (pool_init (loading.1 ++ announce (arg_tenant args) apps));
        match pc s with
        | Left None => Some (report h args apps s)
        | Left (Some e) => Some (uncaught e (stdout s) (net_log s).*2 (results s) None)
        | _ => None
        end
    end.
Proof.
  unfold main. destruct loading as [lines loaded]. cbn [fst snd].
  intros -> Hne [Hl Ha]%printable_app. cbv beta iota zeta.
  rewrite (prints_printable h _ _ Hl). cbv beta iota zeta. rewrite app_nil_l.
  destruct apps as [|a apps]; [done|].
  by rewrite (prints_printable h _ _ Ha).
Qed.

Lemma pool_accepts : (1 ≤ arg_workers args)%Z → ThreadPoolExecutor (arg_workers args) = Return ().
Proof.
  intros Hw. unfold ThreadPoolExecutor.
  by destruct (Z.leb_spec (arg_workers args) 0); [lia|].
Qed.

Lemma pool_refuses :
  (arg_workers args ≤ 0)%Z →
  ThreadPoolExecutor (arg_workers args)
  = Raise (Exception "ValueError" "max_workers must be greater than 0").
Proof.
  intros Hw. unfold ThreadPoolExecutor.
  by destruct (Z.leb_spec (arg_workers args) 0); [|lia].
Qed.

Lemma report_outcomes apps s :
  outcomes (report h args apps s) = results s
  ∧ requests_sent (report h args apps s) = (net_log s).*2.
Proof.
  unfold report.
  destruct (prints h (summary apps (found_apps s)) (stdout s)) as [[e|] out]; [done|].
  destruct (save_results h (arg_output args) (results s) out) as [[[e|] out'] file]; [done|].
  by destruct (prints h (found_listing (found_apps s)) out') as [[e|] out''].
Qed.

Lemma report_returns apps s :
  printable h (summary apps (found_apps s) ++ save_line h (arg_output args) (results s)
                 ++ found_listing (found_apps s)) →
  report h args apps s
  = {| ended := Returns;
       console := stdout s ++ summary apps (found_apps s)
                    ++ save_line h (arg_output args) (results s)
                    ++ found_listing (found_apps s);
       requests_sent := (net_log s).*2;
       outcomes := results s;
       written := saved_file h (arg_output args) (results s) |}.
Proof.
  intros (Hs & Hsv & Hl)%printable_app%(proj1 (and_iff_compat_l _ (printable_app _ _ _))).
  unfold report.
  rewrite (prints_printable h _ _ Hs), (save_results_printed h _ _ _ Hsv),
    (prints_printable h _ _ Hl).
  by rewrite <- !app_assoc.
Qed.

(** A run in which every line of the main thread can be printed leaves the
    block normally and returns. *)
Lemma main_returns apps sched p :
  loading.2 = Return apps → apps ≠ [] →
  (1 ≤ arg_workers args)%Z →
  sleep_error h (arg_delay args) = None → (0 <= arg_delay args)%Q →
  main h args sched = Some p →
  printable h (main_lines h args apps (outcomes p)) →
  ∃ s, run_block apps sched (pool_init (loading.1 ++ announce (arg_tenant args) apps)) = Some s
       ∧ completed s
       ∧ p = {| ended := Returns;
                console := stdout s ++ summary apps (found_in (results s))
                             ++ save_line h (arg_output args) (results s)
                             ++ found_listing (found_in (results s));
                requests_sent := (net_log s).*2;
                outcomes := results s;
                written := saved_file h (arg_output args) (results s) |}.
Proof.
  intros Hload Hne Hw Hsleep Hd Hp Hprint.
  unfold main_lines in Hprint. cbv zeta in Hprint.
  rewrite app_assoc in Hprint. apply printable_app in Hprint as [Hstart Hprint].
  apply printable_app in Hprint as [Hfound Hprint].
  rewrite (main_loaded apps sched Hload Hne Hstart), (pool_accepts Hw) in Hp.
  destruct (run_block apps sched _) as [s|] eqn:Hrun; [|done]. simpl in Hp.
  pose proof (run_inv _ _ _ _ _ _ _ _ _ Hrun) as Hinv.
  apply Qle_bool_iff in Hd.
  exists s. destruct (pc s) as [| | | |[e|]] eqn:Hpc; try done.
  - exfalso. injection Hp as <-. cbn [outcomes uncaught] in Hfound.
    pose proof (exec_no_unwind h apps _ _ _ _ sched (pool_init _) s Hsleep Hd Hrun
                  Hfound eq_refl) as Hnu.
    by rewrite Hpc in Hnu.
  - injection Hp as <-. destruct (report_outcomes apps s) as [Hres _].
    rewrite Hres in Hprint. rewrite <- (inv_found _ _ _ _ _ Hinv) in Hprint |- *.
    split_and!; [done|done|]. by apply report_returns.
Qed.

(** There is such a run for every way the exchanges can end. *)
Lemma main_runs apps replies :
  loading.2 = Return apps → apps ≠ [] →
  (1 ≤ arg_workers args)%Z →
  sleep_error h (arg_delay args) = None → (0 <= arg_delay args)%Q →
  printable h (main_lines h args apps
                 (outcomes_for h apps (arg_tenant args) (arg_verbose args) replies)) →
  ∃ sched p, main h args sched = Some p ∧ ended p = Returns
    ∧ outcomes p = outcomes_for h apps (arg_tenant args) (arg_verbose args) replies.
Proof.
  intros Hload Hne Hw Hsleep Hd Hprint.
  unfold main_lines in Hprint. cbv zeta in Hprint.
  rewrite app_assoc in Hprint. apply printable_app in Hprint as [Hstart Hprint].
  apply printable_app in Hprint as [Hfound Hprint].
  destruct (completes h apps (arg_tenant args) (arg_workers args) (arg_delay args)
              (arg_verbose args) replies
              (loading.1 ++ announce (arg_tenant args) apps) Hw Hsleep Hd Hfound)
    as (sched & s & Hrun & Hc & Hdeals).
  pose proof (run_inv _ _ _ _ _ _ _ _ _ Hrun) as Hinv.
  assert (results s = outcomes_for h apps (arg_tenant args) (arg_verbose args) replies)
    as Hres.
  { apply completed_dealt; [done| |done].
    eapply exec_agrees; [apply init_agrees|done|done]. }
  exists sched. rewrite (main_loaded apps sched Hload Hne Hstart), (pool_accepts Hw), Hrun.
  simpl. rewrite Hc. eexists. split; [done|].
  rewrite <- Hres in Hprint. rewrite <- (inv_found _ _ _ _ _ Hinv) in Hprint.
  by rewrite (report_returns apps s Hprint).
Qed.

(** Without a positive worker count the executor cannot be made, and the
    [ValueError] ends the process. *)
Lemma main_without_workers apps sched :
  loading.2 = Return apps → apps ≠ [] → (arg_workers args ≤ 0)%Z →
  ∃ p, main h args sched = Some p ∧ exit_code (ended p) = 1%Z ∧ requests_sent p = []
       ∧ outcomes p = [] ∧ written p = None.
Proof.
  intros Hload Hne Hw.
  destruct (main_loaded_cases apps sched Hload Hne) as [Hp|[_ ->]]; [done|].
  rewrite (pool_refuses Hw). by eexists.
Qed.

(** The lines of the listing, from the candidates the outcomes carry. *)
Lemma listing_of_candidates apps s r :
  pool_inv h apps (arg_tenant args) (arg_verbose args) s → r ∈ results s →
  "- Name: " +:+ or_unknown (str_field r "display_name")
    +:+ ", ID: " +:+ str_field r "client_id"
  = match candidate_of r with
    | Some (App c d) =>
        "- Name: " +:+ (if bool_decide (d = "") then "Unknown" else d) +:+ ", ID: " +:+ c
    | None => ""
    end.
Proof.
  intros Hinv [k Hk]%list_elem_of_lookup.
  apply (results_in_futures _ _ _ _ s k r Hinv) in Hk.
  apply (inv_done _ _ _ _ _ Hinv) in Hk as (a & reply & _ & ->).
  rewrite probe_candidate. destruct a as [c d].
  pose proof (outcome_fields h (arg_tenant args) (arg_verbose args) (App c d) reply)
    as [Hc Hd].
  unfold str_field. rewrite Hc, Hd. cbn [app_client_id app_display_name].
  by destruct d.
Qed.

(** C7: the interpreter being able to flush its standard streams when it
    exits, a command line that argparse refuses ends the process with the
    status 2.  For a parsed command line, the process exits with the status
    1 when the identifier file cannot be read and when it yields no
    candidate, no request being sent in either case; and when it yields
    candidates, the worker count is at least 1 and the delay is not negative
    and is one that [time.sleep] takes, every run in which each line of the
    main thread can be printed exits with the status 0, and there is such a
    run for every way the exchanges can end for which these lines can be
    printed. *)
Theorem exit_code_of_main :
  flush_error h = None →
  (∀ sched, exit_status h ∘ ended <$> script h Refused sched = Some 2%Z
            ∧ script h (Parsed args) sched = main h args sched)
  ∧ (∀ e sched, loading.2 = Raise e →
       ∃ p, main h args sched = Some p ∧ exit_status h (ended p) = 1%Z
            ∧ requests_sent p = [])
  ∧ (∀ sched, loading.2 = Return [] →
       ∃ p, main h args sched = Some p ∧ exit_status h (ended p) = 1%Z
            ∧ requests_sent p = [])
  ∧ (∀ apps, loading.2 = Return apps → apps ≠ [] →
       (1 ≤ arg_workers args)%Z →
       sleep_error h (arg_delay args) = None → (0 <= arg_delay args)%Q →
       (∀ sched p, main h args sched = Some p →
          printable h (main_lines h args apps (outcomes p)) →
          exit_status h (ended p) = 0%Z)
       ∧ (∀ replies,
            printable h (main_lines h args apps
                           (outcomes_for h apps (arg_tenant args) (arg_verbose args) replies)) →
            ∃ sched p, main h args sched = Some p ∧ exit_status h (ended p) = 0%Z
              ∧ outcomes p
                = outcomes_for h apps (arg_tenant args) (arg_verbose args) replies)).
Proof.
  intros Hflush. unfold exit_status. rewrite Hflush. split_and!.
  - done.
  - intros e sched Hload.
    destruct (main_unreadable e sched Hload) as (p & Hp & Hexit & Hreq & _). by exists p.
  - intros sched Hload.
    destruct (main_empty sched Hload) as (p & Hp & Hexit & Hreq & _). by exists p.
  - intros apps Hload Hne Hw Hsleep Hd. split.
    + intros sched p Hp Hprint.
      by destruct (main_returns apps sched p Hload Hne Hw Hsleep Hd Hp Hprint)
        as (s & _ & _ & ->).
    + intros replies Hprint.
      destruct (main_runs apps replies Hload Hne Hw Hsleep Hd Hprint)
        as (sched & p & Hp & Hend & Hres).
      exists sched, p. split_and!; [done| |done]. by rewrite Hend.
Qed.

(** C8: in a run in which each line of the main thread can be printed, the
    line that reports the exception among them, when writing the output
    file raises [e], [main] still returns (exit status 0) with one outcome
    per candidate and no file, and the console ends with the two lines of
    the summary, the line "[ERROR] Unable to save results: " with [str(e)],
    and, when an application was found, the heading and one line for each
    application found, with its name, or "Unknown" when it has none, and
    its identifier. *)
Theorem write_failure_is_recovered apps sched p path e :
  loading.2 = Return apps → apps ≠ [] →
  (1 ≤ arg_workers args)%Z →
  sleep_error h (arg_delay args) = None → (0 <= arg_delay args)%Q →
  main h args sched = Some p →
  printable h (main_lines h args apps (outcomes p)) →
  arg_output args = Some path → path ≠ "" →
  write_json h path (outcomes p) = Some e →
  let found := filter (λ r, status_is r "exists") (outcomes p) in
  ended p = Returns ∧ exit_code (ended p) = 0%Z ∧ written p = None
  ∧ length (outcomes p) = length apps
  ∧ ∃ before,
      console p
      = before
        ++ [nl +:+ "[RESULT] Total applications checked: " +:+ pretty (length apps);
            "[RESULT] Found existing applications: " +:+ pretty (length found);
            "[ERROR] Unable to save results: " +:+ exc_str e]
        ++ match found with
           | [] => []
           | _ =>
               (nl +:+ "Existing application list:")
               :: ((λ r, match candidate_of r with
                         | Some (App c d) =>
                             "- Name: " +:+ (if bool_decide (d = "") then "Unknown" else d)
                               +:+ ", ID: " +:+ c
                         | None => ""
                         end) <$> found)
           end.
Proof.
  intros Hload Hne Hw Hsleep Hd Hp Hprint Hout Hpath Hwrite.
  destruct (main_returns apps sched p Hload Hne Hw Hsleep Hd Hp Hprint)
    as (s & Hrun & Hc & ->).
  pose proof (run_inv _ _ _ _ _ _ _ _ _ Hrun) as Hinv.
  cbn [ended console outcomes written exit_code] in *.
  assert (save_line h (arg_output args) (results s)
          = ["[ERROR] Unable to save results: " +:+ exc_str e]) as ->.
  { unfold save_line. rewrite Hout, Hwrite. by destruct path. }
  assert (saved_file h (arg_output args) (results s) = None) as ->.
  { unfold saved_file. rewrite Hout, Hwrite. by destruct path. }
  split_and!; [done..|by eapply completed_length|].
  exists (stdout s). unfold summary, found_listing. f_equal. simpl. do 3 f_equal.
  destruct (found_in (results s)) as [|r found] eqn:Hfound; [done|].
  rewrite <- Hfound. f_equal. apply list_fmap_ext.
  intros k r' [_ Hr]%list_elem_of_lookup_2%list_elem_of_filter.
  by eapply listing_of_candidates.
Qed.
End MainFacts.

(** ** The sample run *)

Lemma sample_loaded :
  (load_app_info (sample_host false) "apps.csv").2 = Return sample_apps.
Proof. vm_compute. reflexivity. Defined.

Lemma sample_delay_ok : (0 <= 1 # 2)%Q.
Proof. unfold Qle. simpl. lia. Defined.

Lemma sample_delay_positive : (0 < 1 # 2)%Q.
Proof. reflexivity. Defined.

Lemma sample_final_completed : ∃ s, sample_final = Some s ∧ completed s.
Proof. vm_compute. eexists. split; reflexivity. Defined.

(** The probes end in the order 1, 2, 0 and the statuses are listed in the
    order of the candidates. *)
Example sample_statuses :
  (λ s, status_of <$> results s) <$> sample_final
  = Some [Some "exists"; Some "not_found"; Some "error"].
Proof. vm_compute. reflexivity. Qed.

Example sample_submit_times :
  submit_times <$> sample_final = Some [0; 1 # 2; 4 # 4]%Q.
Proof. vm_compute. reflexivity. Qed.

(** With a negative delay the first [time.sleep] raises once the first
    probe has been submitted; the block waits for this probe and the
    [ValueError] ends the process. *)
Example negative_delay_exit :
  (λ p, (ended p, length (requests_sent p), outcomes p))
    <$> main (sample_host true) negative_delay_args negative_delay_sched
  = Some (Uncaught (Exception "ValueError" "sleep length must be non-negative"), 1, []).
Proof. vm_compute. reflexivity. Qed.

(** A sample host prints every line. *)
Lemma sample_printable writable lines : printable (sample_host writable) lines.
Proof. apply Forall_forall. intros line _. reflexivity. Defined.

(** In the verbose mode, on a console that cannot encode the code received,
    the outcome is an error although the exchange went well; without the
    verbose mode the same reply gives "unknown". *)
Example unprintable_code_is_error :
  let reply := surrogate_reply in
  let a := App "1b730954" "Portal" in
  status_of (probe_result strict_host a "contoso.onmicrosoft.com" true reply) = Some "error"
  ∧ probe_result strict_host a "contoso.onmicrosoft.com" true reply !! "error_message"
    = Some (JStr ("'utf-8' codec can't encode character '\ud800' in position 41: "
                    +:+ "surrogates not allowed"))
  ∧ status_of (probe_result strict_host a "contoso.onmicrosoft.com" false reply)
    = Some "unknown".
Proof. vm_compute. split_and!; reflexivity. Qed.

(** The same happens with the code 7000215 when the console is closed. *)
Example closed_console_hides_application :
  status_of (probe_result closed_console_host (App "1b730954" "Portal")
               "contoso.onmicrosoft.com" true (sample_replies 0)) = Some "error"
  ∧ status_of (probe_result closed_console_host (App "1b730954" "Portal")
                 "contoso.onmicrosoft.com" false (sample_replies 0)) = Some "exists".
Proof. vm_compute. split; reflexivity. Qed.

Lemma status_determined_by_code_witness :
  (let r := probe_result strict_host (App "1b730954" "Portal")
              "contoso.onmicrosoft.com" true surrogate_reply in
   status_of r = Some "error"
   ∧ r !! "error_message"
     = Some (JStr ("'utf-8' codec can't encode character '\ud800' in position 41: "
                     +:+ "surrogates not allowed"))
   ∧ r !! "error_code" = None)
  ∧ status_of (probe_result (sample_host true) (App "1b730954" "Portal")
                 "contoso.onmicrosoft.com" true (sample_replies 0))
    = Some "exists".
Proof.
  split.
  - exact (proj1 (status_determined_by_code strict_host "contoso.onmicrosoft.com" true
                    (App "1b730954" "Portal") surrogate_reply)
             (JStr lone_surrogate) (JStr "") eq_refl).
  - apply (proj1 (proj2 (status_determined_by_code (sample_host true)
                           "contoso.onmicrosoft.com" true (App "1b730954" "Portal")
                           (sample_replies 0)))
             {[ "error" := JStr "invalid_client";
                "error_description" := JStr "AADSTS7000215: Invalid client secret provided.";
                "error_codes" := JList [JInt 7000215] ]} 7000215%Z []).
    + reflexivity.
    + vm_compute. reflexivity.
    + reflexivity.
Defined.

Lemma empty_error_codes_is_error_witness :
  status_of (probe_result (sample_host true) (App "1b730954" "Portal")
               "contoso.onmicrosoft.com" true
               (JsonBody (JDict {[ "error_codes" := JList [] ]})))
  = Some "error".
Proof.
  apply (empty_error_codes_is_error (sample_host true) "contoso.onmicrosoft.com" true
           (App "1b730954" "Portal") {[ "error_codes" := JList [] ]}).
  vm_compute. reflexivity.
Defined.

Lemma probe_returns_tagged_result_witness :
  let r := probe_result (sample_host true) (App "1b730954" "Portal")
             "contoso.onmicrosoft.com" true (sample_replies 2) in
  status_of r = Some "error"
  ∧ r !! "error_message" = Some (JStr "connection timed out").
Proof.
  apply (proj1 (proj2 (probe_returns_tagged_result (sample_host true)
                         "contoso.onmicrosoft.com" true (App "1b730954" "Portal")
                         (sample_replies 2)))
           (Exception "ConnectTimeout" "connection timed out")).
  reflexivity.
Defined.

Lemma results_follow_input_order_witness :
  (1 ≤ 2)%Z
  ∧ ∃ s, sample_final = Some s ∧ completed s
         ∧ candidate_of <$> results s = Some <$> sample_apps.
Proof.
  split; [lia|].
  destruct sample_final_completed as (s & Hrun & Hc).
  exists s. split_and!; [exact Hrun|exact Hc|].
  apply (proj1 (results_follow_input_order (sample_host false) sample_apps
                  "contoso.onmicrosoft.com" 2 (1 # 2)%Q true ltac:(lia))
           [] sample_sched s Hrun Hc).
Defined.

Lemma one_outcome_per_candidate_witness :
  ∃ s, sample_final = Some s ∧ completed s ∧ length (results s) = 3.
Proof.
  destruct sample_final_completed as (s & Hrun & Hc).
  exists s. split_and!; [exact Hrun|exact Hc|].
  apply (proj1 (one_outcome_per_candidate (sample_host false) sample_apps
                  "contoso.onmicrosoft.com" 2 (1 # 2)%Q true)
           [] sample_sched s Hrun Hc).
Defined.

Lemma submissions_are_paced_witness :
  (0 < 1 # 2)%Q
  ∧ ∃ s, sample_final = Some s ∧ paced (1 # 2) (submit_times s).
Proof.
  split; [exact sample_delay_positive|].
  destruct sample_final_completed as (s & Hrun & Hc).
  exists s. split; [exact Hrun|].
  apply (proj1 (submissions_are_paced (sample_host false) sample_apps
                  "contoso.onmicrosoft.com" 2 (1 # 2)%Q true sample_delay_positive)
           [] sample_sched s Hrun).
Defined.

Lemma duplicates_are_probed_twice_witness :
  ∃ s, sample_final = Some s ∧ completed s
       ∧ (0, token_request "1b730954" "contoso.onmicrosoft.com") ∈ net_log s
       ∧ (2, token_request "1b730954" "contoso.onmicrosoft.com") ∈ net_log s.
Proof.
  destruct sample_final_completed as (s & Hrun & Hc).
  exists s. split_and!; [exact Hrun|exact Hc| |].
  - apply (proj1 (duplicates_are_probed_twice (sample_host false) sample_apps
                    "contoso.onmicrosoft.com" 2 (1 # 2)%Q true 0 2
                    (App "1b730954" "Portal") (App "1b730954" "Portal")
                    ltac:(lia) eq_refl eq_refl eq_refl)
             [] sample_sched s Hrun Hc).
  - apply (proj1 (duplicates_are_probed_twice (sample_host false) sample_apps
                    "contoso.onmicrosoft.com" 2 (1 # 2)%Q true 0 2
                    (App "1b730954" "Portal") (App "1b730954" "Portal")
                    ltac:(lia) eq_refl eq_refl eq_refl)
             [] sample_sched s Hrun Hc).
Defined.

Lemma exit_code_of_main_witness :
  (∃ p, main unreadable_host (sample_args 2) sample_sched = Some p
        ∧ exit_status unreadable_host (ended p) = 1%Z ∧ requests_sent p = [])
  ∧ (∃ p, main empty_host (sample_args 2) sample_sched = Some p
          ∧ exit_status empty_host (ended p) = 1%Z ∧ requests_sent p = [])
  ∧ (∃ p, main (sample_host false) (sample_args 2) sample_sched = Some p
          ∧ exit_status (sample_host false) (ended p) = 0%Z).
Proof.
  split_and!.
  - apply (proj1 (proj2 (exit_code_of_main unreadable_host (sample_args 2) eq_refl))
             (Exception "FileNotFoundError"
                "[Errno 2] No such file or directory: 'apps.csv'") sample_sched).
    vm_compute. reflexivity.
  - apply (proj1 (proj2 (proj2 (exit_code_of_main empty_host (sample_args 2) eq_refl)))
             sample_sched).
    vm_compute. reflexivity.
  - assert (∃ p, main (sample_host false) (sample_args 2) sample_sched = Some p)
      as [p Hp].
    { vm_compute. eexists. reflexivity. }
    exists p. split; [exact Hp|].
    apply (proj1 (proj2 (proj2 (proj2 (exit_code_of_main (sample_host false)
                                          (sample_args 2) eq_refl)))
                    sample_apps sample_loaded ltac:(discriminate) ltac:(simpl; lia)
                    eq_refl sample_delay_ok)
             sample_sched p Hp).
    apply sample_printable.
Defined.

(** The identifier file is read and yields three candidates, and with the
    worker count 0 the process exits with the status 1. *)
Lemma exit_code_1_with_candidates :
  (load_app_info (sample_host false) (arg_file (sample_args 0))).2 = Return sample_apps
  ∧ sample_apps ≠ []
  ∧ ∃ p, main (sample_host false) (sample_args 0) sample_sched = Some p
         ∧ exit_status (sample_host false) (ended p) = 1%Z.
Proof.
  split_and!; [exact sample_loaded|discriminate|].
  vm_compute. eexists. split; reflexivity.
Qed.

(** So it does with two workers when the delay is too long for the clock:
    the first [time.sleep] raises, after the first submission. *)
Example oversized_delay_exit :
  (λ p, (ended p, length (requests_sent p), outcomes p))
    <$> main bounded_clock_host oversized_delay_args negative_delay_sched
  = Some (Uncaught (Exception "OverflowError"
                      "timestamp too large to convert to C _PyTime_t"), 1, []).
Proof. vm_compute. reflexivity. Qed.

(** The same clock takes the default delay, and the console that cannot
    encode a lone surrogate prints every line of the main thread in the
    sample run. *)
Example bounded_clock_takes_default_delay :
  sleep_error bounded_clock_host (1 # 2)%Q = None.
Proof. reflexivity. Qed.

Example strict_console_prints_sample :
  printable strict_host
    (main_lines strict_host (sample_args 2) sample_apps
       (outcomes_for strict_host sample_apps "contoso.onmicrosoft.com" true sample_replies)).
Proof. vm_compute. repeat constructor. Qed.

(** And when the console is closed: the first [print] raises inside the
    [try] of the loading, and the [print] of its handler raises in turn. *)
Example closed_console_exit :
  (λ p, (ended p, console p, requests_sent p))
    <$> main closed_console_host (sample_args 2) sample_sched
  = Some (Uncaught (Exception "ValueError" "I/O operation on closed file."), [], []).
Proof. vm_compute. reflexivity. Qed.

Lemma write_failure_is_recovered_witness :
  ∃ p, main (sample_host false) (sample_args 2) sample_sched = Some p
       ∧ ended p = Returns ∧ written p = None ∧ length (outcomes p) = 3.
Proof.
  assert (∃ p, main (sample_host false) (sample_args 2) sample_sched = Some p) as [p Hp].
  { vm_compute. eexists. reflexivity. }
  exists p. split; [exact Hp|].
  destruct (write_failure_is_recovered (sample_host false) (sample_args 2) sample_apps
              sample_sched p "out.json"
              (Exception "PermissionError" "[Errno 13] Permission denied: 'out.json'")
              sample_loaded ltac:(discriminate) ltac:(simpl; lia) eq_refl sample_delay_ok
              Hp (sample_printable false _) eq_refl ltac:(discriminate) eq_refl)
    as (Hend & _ & Hfile & Hlen & _).
  split_and!; [exact Hend|exact Hfile|exact Hlen].
Defined.

(** The console of the sample run, whose output file cannot be written. *)
Example sample_console :
  console <$> main (sample_host false) (sample_args 2) sample_sched
  = Some [ "[INFO] Detected CSV format file";
           "[INFO] Starting detection in tenant contoso.onmicrosoft.com";
           "[INFO] Loaded 3 application IDs";
           "[DEBUG] Client ID: 04b07795, Error Code: 700016";
           "[DEBUG] Client ID: 1b730954, Error Code: 7000215";
           "[FOUND] App Name: Portal, App ID: 1b730954";
           nl +:+ "[RESULT] Total applications checked: 3";
           "[RESULT] Found existing applications: 1";
           "[ERROR] Unable to save results: [Errno 13] Permission denied: 'out.json'";
           nl +:+ "Existing application list:";
           "- Name: Portal, ID: 1b730954" ].
Proof. vm_compute. reflexivity. Qed.

(** * Further facts *)

(** ** Substrings *)

Lemma append_cons (c : Ascii.ascii) (a b : string) :
  String c a +:+ b = String c (a +:+ b).
Proof. reflexivity. Qed.

Lemma append_nil (b : string) : "" +:+ b = b.
Proof. reflexivity. Qed.

Lemma prefix_iff (a b : string) :
  String.prefix a b = true ↔ ∃ post, b = a +:+ post.
Proof.
  revert b. induction a as [|c a IH]; intros b; simpl.
  - split; [intros _; by exists b|by destruct b].
  - destruct b as [|c' b]; simpl; [split; [done|by intros [? ?]]|].
    destruct (Ascii.ascii_dec c c') as [->|Hne].
    + rewrite IH. split; intros [post Hb]; exists post;
        rewrite append_cons in *; congruence.
    + split; [done|]. intros [post Hb]. rewrite append_cons in Hb. congruence.
Qed.

Lemma contains_unfold (needle hay : string) :
  contains needle hay
  = if String.prefix needle hay then true
    else match hay with
         | EmptyString => false
         | String _ rest => contains needle rest
         end.
Proof. by destruct hay. Qed.

Lemma contains_iff (needle hay : string) :
  contains needle hay = true ↔ ∃ pre post, hay = pre +:+ needle +:+ post.
Proof.
  induction hay as [|c hay IH]; rewrite contains_unfold.
  - destruct (String.prefix needle "") eqn:Hp.
    + split; [intros _|done]. apply prefix_iff in Hp as [post Hp]. by exists "", post.
    + split; [done|]. intros (pre & post & Hh).
      destruct pre; [|by rewrite append_cons in Hh]. rewrite append_nil in Hh.
      assert (String.prefix needle "" = true) by (apply prefix_iff; by exists post).
      congruence.
  - destruct (String.prefix needle (String c hay)) eqn:Hp.
    + split; [intros _|done]. apply prefix_iff in Hp as [post Hp]. by exists "", post.
    + rewrite IH. split.
      * intros (pre & post & ->). by exists (String c pre), post.
      * intros (pre & post & Hh). destruct pre as [|c' pre].
        -- rewrite append_nil in Hh. assert (String.prefix needle (String c hay) = true)
             by (apply prefix_iff; by exists post).
           congruence.
        -- rewrite append_cons in Hh. simplify_eq. by exists pre, post.
Qed.

(** ** The loaders *)

Section LoaderFacts.
Variable h : host.

(** X1: the TXT loader raises exactly when the file cannot be read; else
    its candidates are the stripped lines that are not blank, in the order of
    the file, each with an empty display name. *)
Theorem txt_loader_keeps_stripped_lines file_path :
  (∀ e, read_lines h file_path = Raise e →
     load_client_ids_from_txt h file_path = Raise e)
  ∧ (∀ lines, read_lines h file_path = Return lines →
       ∃ apps, load_client_ids_from_txt h file_path = Return apps
         ∧ app_client_id <$> apps = filter (λ s, s ≠ "") (str_strip h <$> lines)
         ∧ Forall (λ a, app_display_name a = "") apps).
Proof.
  unfold load_client_ids_from_txt. split.
  - by intros e ->.
  - intros lines ->. simpl. eexists. split; [done|].
    induction lines as [|line lines [IH1 IH2]]; [by split|].
    rewrite fmap_cons. destruct (decide (str_strip h line = "")) as [Hblank|Hblank].
    + rewrite filter_cons_False by (by intros ?).
      simpl. rewrite bool_decide_true by done. split; [exact IH1|exact IH2].
    + rewrite filter_cons_True by done.
      simpl. rewrite bool_decide_false by done.
      split; [rewrite fmap_cons; simpl; f_equal; exact IH1|constructor; [done|exact IH2]].
Qed.

Lemma csv_rows_candidates rows acc apps :
  csv_rows h rows acc = Return apps →
  ∃ new, apps = acc ++ new
    ∧ Forall2 (row_candidate h) (filter (λ row, has_app_id h row) rows) new.
Proof.
  revert acc. induction rows as [|row rows IH]; intros acc; simpl.
  - intros [= <-]. exists []. by rewrite app_nil_r.
  - unfold has_app_id at 1. destruct (row !! "appId") as [[id|]|] eqn:Hid; simpl.
    + case_bool_decide as Hblank.
      * intros Hrows. rewrite filter_cons_False
          by (unfold has_app_id; rewrite Hid, bool_decide_true by done; exact (λ x, x)).
        by apply IH.
      * destruct (default (Some "") (row !! "displayName")) as [d|] eqn:Hd; simpl; [|done].
        intros (new & -> & Hnew)%IH.
        rewrite filter_cons_True
          by (unfold has_app_id; rewrite Hid, bool_decide_false by done; exact I).
        exists (App (str_strip h id) (str_strip h d) :: new).
        split; [by rewrite <- app_assoc|].
        constructor; [|done]. by exists id, d.
    + done.
    + intros Hrows. rewrite filter_cons_False
        by (unfold has_app_id; rewrite Hid; exact (λ x, x)).
      by apply IH.
Qed.

Lemma csv_rows_short_row rows acc :
  Exists short_row rows → csv_rows h rows acc = Raise strip_error.
Proof.
  revert acc. induction rows as [|row rows IH]; intros acc Hshort; [by inversion Hshort|].
  simpl. destruct (row !! "appId") as [[id|]|] eqn:Hid; simpl; [| done |].
  - assert (Exists short_row rows) as Hrest.
    { inversion Hshort as [?? Hrow|]; [|done]. unfold short_row in Hrow. congruence. }
    case_bool_decide; [by apply IH|].
    destruct (default (Some "") (row !! "displayName")) as [d|]; simpl; [by apply IH|done].
  - apply IH. inversion Hshort as [?? Hrow|]; [|done]. unfold short_row in Hrow. congruence.
Qed.

Lemma csv_rows_no_id rows acc :
  Forall (λ row, row !! "appId" = None
                 ∨ ∃ id, row !! "appId" = Some (Some id) ∧ str_strip h id = "") rows →
  csv_rows h rows acc = Return acc.
Proof.
  induction 1 as [|row rows [Hrow|(id & Hrow & Hblank)] _ IH]; [done|..]; simpl.
  - by rewrite Hrow.
  - rewrite Hrow. simpl. by rewrite bool_decide_true.
Qed.

(** X2: when the CSV loader returns, its candidates are made, in the order
    of the file, from the rows that have an [appId] that is not blank: the
    identifier is the stripped [appId] and the display name the stripped
    [displayName], the empty string taking its place when the file has no
    such column.  The delimiter is
    a tab when the stripped first line has one, else a comma. *)
Theorem csv_loader_candidates file_path line rows apps :
  read_first_line h file_path = Return line →
  dict_reader h file_path
    (if contains tab (str_strip h line) then tab else ",") = Return rows →
  load_client_ids_from_csv h file_path = Return apps →
  Forall2 (row_candidate h) (filter (λ row, has_app_id h row) rows) apps
  ∧ Forall (λ a, app_client_id a ≠ "") apps
  ∧ length apps ≤ length rows.
Proof.
  intros Hline Hrows. unfold load_client_ids_from_csv. rewrite Hline. simpl.
  rewrite Hrows. simpl. intros (new & -> & Hnew)%csv_rows_candidates. simpl.
  split_and!; [done| |].
  - assert (Forall (λ row, has_app_id h row) (filter (λ row, has_app_id h row) rows)) as Hall.
    { apply Forall_forall. by intros row [? _]%list_elem_of_filter. }
    induction Hnew as [|row a picked new (id & d & Hid & _ & ->) _ IH]; [done|].
    apply Forall_cons in Hall as [Hrow Hall]. constructor; [|by apply IH].
    unfold has_app_id in Hrow. rewrite Hid in Hrow. simpl. by case_bool_decide.
  - rewrite <- (Forall2_length _ _ _ Hnew). apply length_filter.
Qed.

Lemma load_csv_by_extension file :
  splitext_lower h file = ".csv" ∨ splitext_lower h file = ".tsv" →
  load_app_info h file
  = (["[INFO] Detected CSV format file"], load_client_ids_from_csv h file).
Proof. unfold load_app_info. by intros [-> | ->]. Qed.

(** X3: a file with the extension .csv or .tsv one of whose rows is too
    short for the [appId] column ends the run before any request, whatever
    the other rows hold: [main] ends with the status 1, and when the two
    lines can be printed it prints the [AttributeError] as a reading error
    and calls [sys.exit(1)]. *)
Theorem short_row_aborts_run args line rows sched :
  splitext_lower h (arg_file args) = ".csv" ∨ splitext_lower h (arg_file args) = ".tsv" →
  read_first_line h (arg_file args) = Return line →
  dict_reader h (arg_file args)
    (if contains tab (str_strip h line) then tab else ",") = Return rows →
  Exists short_row rows →
  ∃ p, main h args sched = Some p
    ∧ exit_code (ended p) = 1%Z ∧ requests_sent p = [] ∧ outcomes p = []
    ∧ written p = None
    ∧ (printable h ["[INFO] Detected CSV format file";
                    "Error: Unable to read file: "
                      +:+ "'NoneType' object has no attribute 'strip'"] →
       p = {| ended := SysExit 1;
              console := ["[INFO] Detected CSV format file";
                          "Error: Unable to read file: "
                            +:+ "'NoneType' object has no attribute 'strip'"];
              requests_sent := []; outcomes := []; written := None |}).
Proof.
  intros Hext Hline Hrows Hshort.
  assert ((load_app_info h (arg_file args)).2 = Raise strip_error) as Hload.
  { rewrite (load_csv_by_extension _ Hext). simpl.
    unfold load_client_ids_from_csv. rewrite Hline. simpl. rewrite Hrows. simpl.
    by apply csv_rows_short_row. }
  destruct (main_unreadable h args strip_error sched Hload)
    as (p & Hp & Hexit & Hreq & Hres & Hfile).
  exists p. split_and!; [done..|].
  intros Hprint. pose proof (main_unreadable_printed h args strip_error sched Hload) as Hq.
  rewrite (load_csv_by_extension _ Hext) in Hq. rewrite (Hq Hprint) in Hp.
  by injection Hp as <-.
Qed.

(** X4: a file with the extension .csv or .tsv in which no row has an
    [appId] that is not blank (no such column, no row at all, or blank
    cells only) yields no candidate and ends the run before any request:
    [main] ends with the status 1, and when the two lines can be printed it
    prints that no valid identifier was found and calls [sys.exit(1)]. *)
Theorem no_app_id_aborts_run args line rows sched :
  splitext_lower h (arg_file args) = ".csv" ∨ splitext_lower h (arg_file args) = ".tsv" →
  read_first_line h (arg_file args) = Return line →
  dict_reader h (arg_file args)
    (if contains tab (str_strip h line) then tab else ",") = Return rows →
  Forall (λ row, row !! "appId" = None
                 ∨ ∃ id, row !! "appId" = Some (Some id) ∧ str_strip h id = "") rows →
  ∃ p, main h args sched = Some p
    ∧ exit_code (ended p) = 1%Z ∧ requests_sent p = [] ∧ outcomes p = []
    ∧ written p = None
    ∧ (printable h ["[INFO] Detected CSV format file";
                    "Error: No valid application ID data found"] →
       p = {| ended := SysExit 1;
              console := ["[INFO] Detected CSV format file";
                          "Error: No valid application ID data found"];
              requests_sent := []; outcomes := []; written := None |}).
Proof.
  intros Hext Hline Hrows Hnone.
  assert ((load_app_info h (arg_file args)).2 = Return []) as Hload.
  { rewrite (load_csv_by_extension _ Hext). simpl.
    unfold load_client_ids_from_csv. rewrite Hline. simpl. rewrite Hrows. simpl.
    by apply csv_rows_no_id. }
  destruct (main_empty h args sched Hload) as (p & Hp & Hexit & Hreq & Hres & Hfile).
  exists p. split_and!; [done..|].
  intros Hprint. pose proof (main_empty_printed h args sched Hload) as Hq.
  rewrite (load_csv_by_extension _ Hext) in Hq. rewrite (Hq Hprint) in Hp.
  by injection Hp as <-.
Qed.

(** X5: for a file whose extension is none of .txt, .csv and .tsv the
    format is taken from the stripped first line: a tab anywhere in it makes
    the file a CSV file, header or not; so does a comma together with one of
    the column names; without a tab and without a column name the file is
    read as a list of identifiers, commas included. *)
Theorem format_from_first_line file line :
  splitext_lower h file ∉ [".txt"; ".csv"; ".tsv"] →
  read_first_line h file = Return line →
  let first_line := str_strip h line in
  let has s := ∃ pre post, first_line = pre +:+ s +:+ post in
  (has tab →
     load_app_info h file
     = (["[INFO] Identified as CSV format file based on content"],
        load_client_ids_from_csv h file))
  ∧ (has "," → has "appId" ∨ has "displayName" →
       load_app_info h file
       = (["[INFO] Identified as CSV format file based on content"],
          load_client_ids_from_csv h file))
  ∧ (¬ has tab → ¬ has "appId" → ¬ has "displayName" →
       load_app_info h file
       = (["[INFO] Identified as TXT format file based on content"],
          load_client_ids_from_txt h file)).
Proof.
  intros Hext Hline first_line has.
  assert (∀ s, has s ↔ contains s first_line = true) as Hhas.
  { intros s. symmetry. apply contains_iff. }
  assert (∀ s, ¬ has s → contains s first_line = false) as Hnot.
  { intros s Hs. destruct (contains s first_line) eqn:E; [|done].
    by apply Hhas in E. }
  unfold load_app_info. rewrite Hline.
  rewrite !bool_decide_false by (intros E; apply Hext; rewrite E; set_solver).
  simpl. fold first_line. split_and!.
  - intros Htab%Hhas. by rewrite Htab.
  - intros Hcomma%Hhas [Hid%Hhas|Hname%Hhas].
    + rewrite Hcomma, Hid. by destruct (contains tab first_line).
    + rewrite Hcomma, Hname.
      by destruct (contains tab first_line), (contains "appId" first_line).
  - intros Htab%Hnot Hid%Hnot Hname%Hnot. rewrite Htab, Hid, Hname.
    by destruct (contains "," first_line).
Qed.
End LoaderFacts.

(** ** The probe *)

Lemma append_length (a b : string) :
  String.length (a +:+ b) = String.length a + String.length b.
Proof. induction a as [|c a IH]; [done|]. rewrite append_cons. simpl. by rewrite IH. Qed.

Lemma append_inj_l (a b s : string) : a +:+ s = b +:+ s → a = b.
Proof.
  revert b. induction a as [|c a IH]; intros [|c' b] Heq.
  - done.
  - apply (f_equal String.length) in Heq. rewrite append_nil, append_cons in Heq.
    simpl in Heq. rewrite append_length in Heq. lia.
  - apply (f_equal String.length) in Heq. rewrite append_nil, append_cons in Heq.
    simpl in Heq. rewrite append_length in Heq. lia.
  - rewrite !append_cons in Heq. injection Heq as -> Heq. f_equal. by apply IH.
Qed.

(** X6: two requests of the probe are equal only for the same identifier
    and the same tenant. *)
Theorem token_request_inj client_id tenant client_id' tenant' :
  token_request client_id tenant = token_request client_id' tenant' →
  client_id = client_id' ∧ tenant = tenant'.
Proof.
  intros Heq. split.
  - apply (f_equal (λ rq, data rq !! "client_id")) in Heq.
    vm_compute in Heq. by injection Heq.
  - apply (f_equal url) in Heq. simpl in Heq.
    apply (inj (String.app _)) in Heq. by apply append_inj_l in Heq.
Qed.

Section ProbeMore.
Variable h : host.
Variable tenant : string.
Variable verbose : bool.

Lemma read_not_an_object j :
  (∀ m, j ≠ JDict m) →
  read_error_fields j
  = Raise (Exception "AttributeError"
             ("'" +:+ py_type_name j +:+ "' object has no attribute 'get'")).
Proof. intros Hj. destruct j; try done. by destruct (Hj m). Qed.

(** X7: what the verbose mode changes.  Without it the probe prints
    nothing, and its dict does not depend on the host.  With it, when the
    two fields of the body are read, the probe prints one line with the
    identifier and the code and returns the same dict, unless this [print]
    raises: the [except] of the exchange then catches the exception and the
    dict has the status "error" with its message, whatever the code.  When
    the fields are not read, nothing is printed in either mode. *)
Theorem verbosity_and_the_result (h' : host) client_id display_name reply :
  let quiet := continue (check_app_existence h client_id tenant display_name false) reply in
  let loud := continue (check_app_existence h client_id tenant display_name true) reply in
  quiet.1 = []
  ∧ (continue (check_app_existence h' client_id tenant display_name false) reply).2 = quiet.2
  ∧ match response_json reply ≫= read_error_fields with
    | Raise _ => loud = quiet
    | Return (code, _) =>
        let line := "[DEBUG] Client ID: " +:+ client_id +:+ ", Error Code: "
                      +:+ py_str h code in
        match print_error h line with
        | None => loud = ([line], quiet.2)
        | Some e =>
            loud = ([], {[ "client_id" := JStr client_id;
                           "display_name" := JStr display_name;
                           "status" := JStr "error";
                           "error_message" := JStr (exc_str e) ]})
        end
    end.
Proof.
  simpl. destruct (response_json reply) as [j|e]; simpl; [|done].
  destruct (read_error_fields j) as [[code description]|e]; simpl; [|done].
  unfold debug_line.
  destruct (print_error h _) as [e|]; simpl;
    by destruct (py_eq_int code 7000215), (py_eq_int code 700016).
Qed.

(** X8: a body that decodes to something else than an object (a list, a
    string, a number, [null]) gives the status "error", with the message of
    the [AttributeError] of [get]. *)
Theorem body_not_an_object_is_error a j :
  (∀ m, j ≠ JDict m) →
  let r := probe_result h a tenant verbose (JsonBody j) in
  status_of r = Some "error"
  ∧ r !! "error_message"
    = Some (JStr ("'" +:+ py_type_name j +:+ "' object has no attribute 'get'")).
Proof.
  intros Hj. simpl.
  by rewrite (result_when_raised h tenant verbose a (JsonBody j) _ (read_not_an_object j Hj)).
Qed.

(** X9: when [error_codes] is not a list: a string that is not empty is
    indexed, its first character is the code and the status is "unknown",
    provided the [print] of the verbose mode does not raise; the empty
    string, an object, a number, a boolean and [null] make the indexing
    raise, and the status is "error" with the message of the exception. *)
Theorem error_codes_not_a_list a m v :
  m !! "error_codes" = Some v →
  let r := probe_result h a tenant verbose (JsonBody (JDict m)) in
  match v with
  | JList _ => True
  | JStr (String c rest) =>
      debug_raises h verbose (app_client_id a) (JStr (first_char (String c rest))) = None →
      status_of r = Some "unknown"
      ∧ r !! "error_code" = Some (JStr (first_char (String c rest)))
  | JStr EmptyString =>
      status_of r = Some "error"
      ∧ r !! "error_message" = Some (JStr "string index out of range")
  | JDict _ =>
      status_of r = Some "error" ∧ r !! "error_message" = Some (JStr "0")
  | _ =>
      status_of r = Some "error"
      ∧ r !! "error_message"
        = Some (JStr ("'" +:+ py_type_name v +:+ "' object is not subscriptable"))
  end.
Proof.
  intros Hm. simpl.
  assert (∀ e, py_item0 v = Raise e →
            read_error_fields (JDict m) = Raise e) as Hraise.
  { intros e He. unfold read_error_fields. simpl. rewrite Hm. simpl. by rewrite He. }
  destruct v as [| | | |[|c s]| |]; try done.
  all: try by rewrite (result_when_raised h tenant verbose a (JsonBody (JDict m)) _
                         (Hraise _ eq_refl)).
  intros Hd.
  assert (read_error_fields (JDict m)
          = Return (JStr (first_char (String c s)),
                    default (JStr "") (m !! "error_description")))
    as Hread.
  { unfold read_error_fields. simpl. by rewrite Hm. }
  by rewrite (result_when_read h tenant verbose a (JsonBody (JDict m)) _ _ Hread Hd).
Qed.

(** X10: when the [print] of the verbose mode does not raise, the first
    code is compared by value: a float equal to 7000215 gives "exists" and
    one equal to 700016 gives "not_found", as the integers do; a first code
    that is neither an integer nor a finite float (a string, a boolean,
    [null], a list, an object) gives "unknown". *)
Theorem codes_compare_by_value a m code rest :
  m !! "error_codes" = Some (JList (code :: rest)) →
  debug_raises h verbose (app_client_id a) code = None →
  let r := probe_result h a tenant verbose (JsonBody (JDict m)) in
  (∀ q, code = JFloat (PyFinite q) → (q == inject_Z 7000215)%Q →
     status_of r = Some "exists")
  ∧ (∀ q, code = JFloat (PyFinite q) → (q == inject_Z 700016)%Q →
       status_of r = Some "not_found")
  ∧ ((∀ n, code ≠ JInt n) → (∀ q, code ≠ JFloat (PyFinite q)) →
       status_of r = Some "unknown").
Proof.
  intros Hm Hd. simpl.
  rewrite (result_when_read h tenant verbose a (JsonBody (JDict m)) _ _
             (read_first_code m _ _ Hm) Hd).
  split_and!.
  - intros q -> Hq. simpl. apply Qeq_bool_iff in Hq. by rewrite Hq.
  - intros q -> Hq. simpl.
    destruct (Qeq_bool q (inject_Z 7000215)) eqn:E.
    + apply Qeq_bool_iff in E. rewrite Hq in E. by vm_compute in E.
    + apply Qeq_bool_iff in Hq. by rewrite Hq.
  - intros Hint Hfloat. destruct code as [|[]| |[| |q]| | |]; try done.
    + by destruct (Hint n).
    + by destruct (Hfloat q).
Qed.

(** X11: of a body with a list of codes, when the [print] of the verbose
    mode does not raise, the dict records the first code only, and the
    description as it is in the body, whatever its type, or the empty string
    when the body has none; when that [print] raises, the dict records
    neither. *)
Theorem recorded_fields a m code rest :
  m !! "error_codes" = Some (JList (code :: rest)) →
  let r := probe_result h a tenant verbose (JsonBody (JDict m)) in
  match debug_raises h verbose (app_client_id a) code with
  | None =>
      r !! "error_code" = Some code
      ∧ r !! "error_description" = Some (default (JStr "") (m !! "error_description"))
  | Some e =>
      r !! "error_code" = None ∧ r !! "error_description" = None
      ∧ r !! "error_message" = Some (JStr (exc_str e))
  end.
Proof.
  intros Hm. simpl.
  destruct (debug_raises h verbose (app_client_id a) code) as [e|] eqn:Hd.
  - by rewrite (result_when_print_raises h tenant verbose a (JsonBody (JDict m)) _ _ _
                  (read_first_code m _ _ Hm) Hd).
  - by rewrite (result_when_read h tenant verbose a (JsonBody (JDict m)) _ _
                  (read_first_code m _ _ Hm) Hd).
Qed.
End ProbeMore.

(** ** The thread pool *)

Section DispatcherMore.
Variable h : host.
Variable app_info : list app.
Variable tenant : string.
Variable workers : Z.
Variable delay : Q.
Variable verbose : bool.

Local Notation inv := (pool_inv h app_info tenant verbose).
Local Notation run_step := (step h app_info tenant workers delay verbose).
Local Notation run := (exec h app_info tenant workers delay verbose).

Lemma run_snoc sched a s :
  run (sched ++ [a]) s = run sched s ≫= run_step a.
Proof.
  rewrite exec_app. destruct (run sched s) as [s1|]; [|done]. simpl.
  by destruct (run_step a s1).
Qed.

(** A property kept by every step holds of every state of a run. *)
Lemma run_ind (P : pool → Prop) out :
  P (pool_init out) →
  (∀ a s s', inv s → P s → run_step a s = Some s' → P s') →
  ∀ sched s, run sched (pool_init out) = Some s → P s.
Proof.
  intros Hinit Hstep sched.
  induction sched as [|a sched IH] using rev_ind; intros s Hrun.
  - simpl in Hrun. by simplify_eq.
  - rewrite run_snoc in Hrun.
    destruct (run sched (pool_init out)) as [s1|] eqn:Hrun1; [|done]. simpl in Hrun.
    eapply Hstep; [|by apply IH|done]. by eapply run_inv.
Qed.

(** X12: in every state of every run with a worker count of at least 1, no
    more than [workers] exchanges are under way. *)
Theorem in_flight_bounded out sched s :
  (1 ≤ workers)%Z →
  run sched (pool_init out) = Some s →
  (Z.of_nat (size (running s)) ≤ workers)%Z.
Proof.
  intros Hw. revert sched s.
  apply (run_ind (λ s, (Z.of_nat (size (running s)) ≤ workers)%Z)).
  - unfold pool_init. cbn [running]. rewrite size_empty. lia.
  - intros a s s' _ Hle Hstep. destruct a as [dt| | |i reply].
    + simpl in Hstep. destruct (Qle_bool 0 dt); by simplify_eq.
    + simpl in Hstep. unfold main_step in Hstep. repeat case_match; by simplify_eq.
    + simpl in Hstep. destruct (queue s) as [|i rest]; [done|].
      destruct (app_info !! i); [|done]. case_bool_decide as Hfree; simplify_eq.
      cbn [running]. rewrite size_union_alt, size_singleton.
      assert (size (running s ∖ {[i]}) ≤ size (running s))
        by (apply subseteq_size; set_solver).
      lia.
    + unfold step in Hstep. destruct (app_info !! i) as [a|]; [|done].
      case_bool_decide; [|done].
      destruct (continue (probe h tenant verbose a) reply). simplify_eq.
      cbn [running].
      assert (size (running s ∖ {[i]}) ≤ size (running s))
        by (apply subseteq_size; set_solver).
      lia.
Qed.

(** X13: the block cannot deadlock: with a worker count of at least 1,
    every run can be carried on, whatever the replies still to come, to a
    state in which the block is left. *)
Theorem no_deadlock out sched s replies :
  (1 ≤ workers)%Z →
  run sched (pool_init out) = Some s →
  ∃ sched' s' e,
    run (sched ++ sched') (pool_init out) = Some s' ∧ pc s' = Left e
    ∧ deals replies sched'.
Proof.
  intros Hw Hrun.
  destruct (finish h app_info tenant workers delay verbose replies _ s (le_n _)
              (run_inv _ _ _ _ _ _ _ _ _ Hrun) Hw)
    as (sched' & s' & Hrun' & [e He] & Hdeals).
  exists sched', s', e. split_and!; [|done|done].
  by rewrite exec_app, Hrun.
Qed.

Ltac lighter :=
  unfold weight, after_submit; cbn [pc queue running];
  repeat match goal with H : pc _ = _ |- _ => rewrite H end;
  rewrite ?length_app; repeat case_match; simpl in *; lia.

Lemma step_weight a s s' :
  inv s → run_step a s = Some s' →
  weight (length app_info) s' + (if is_thread_step a then 1 else 0)
  ≤ weight (length app_info) s.
Proof.
  intros Hinv Hstep.
  pose proof (inv_submitted _ _ _ _ _ Hinv) as Hsub.
  destruct a as [dt| | |i reply]; simpl.
  - simpl in Hstep. destruct (Qle_bool 0 dt); simplify_eq. unfold weight. simpl. lia.
  - simpl in Hstep. unfold main_step in Hstep.
    destruct (pc s) as [i|i wake|j|e|e] eqn:Epc; simpl in Hsub.
    + destruct (app_info !! i) as [a|] eqn:Ha; simplify_eq.
      * apply lookup_lt_Some in Ha. lighter.
      * lighter.
    + destruct (Qle_bool wake (clock s)); simplify_eq. lighter.
    + destruct (futures s !! j) as [[r|]|] eqn:Hj; simplify_eq.
      * apply lookup_lt_Some in Hj.
        destruct (if status_is r "exists" then _ else _) as [raised out].
        simplify_eq. lighter.
      * lighter.
    + case_bool_decide; simplify_eq. lighter.
    + done.
  - simpl in Hstep. destruct (queue s) as [|i rest] eqn:Hq; [done|].
    destruct (app_info !! i); [|done]. case_bool_decide; simplify_eq.
    unfold weight. cbn [pc queue running]. rewrite Hq. simpl.
    rewrite size_union_alt, size_singleton.
    assert (size (running s ∖ {[i]}) ≤ size (running s))
      by (apply subseteq_size; set_solver).
    lia.
  - unfold step in Hstep. destruct (app_info !! i) as [a|]; [|done].
    case_bool_decide as Hi; [|done].
    destruct (continue (probe h tenant verbose a) reply). simplify_eq.
    unfold weight. cbn [pc queue running].
    rewrite size_difference by set_solver. rewrite size_singleton.
    assert (size (running s) ≠ 0); [|lia].
    apply size_non_empty_iff. set_solver.
Qed.

Lemma init_weight out n : weight n (pool_init out) = 5 * n + 4.
Proof.
  unfold weight, pool_init. cbn [pc queue running main_weight length].
  rewrite size_empty. lia.
Qed.

(** X14: a run of the block over [n] candidates takes at most [5 * n + 4]
    steps of threads, however time passes in between: every candidate is
    submitted, taken, answered and collected once, and nothing is tried
    again. *)
Theorem thread_steps_bounded out sched s :
  run sched (pool_init out) = Some s →
  thread_steps sched ≤ 5 * length app_info + 4.
Proof.
  intros Hrun.
  enough (thread_steps sched + weight (length app_info) s
          ≤ weight (length app_info) (pool_init out)) as Hle.
  { rewrite init_weight in Hle. lia. }
  revert s Hrun. induction sched as [|a sched IH] using rev_ind; intros s Hrun.
  - simpl in Hrun. simplify_eq. unfold thread_steps. simpl. lia.
  - rewrite run_snoc in Hrun.
    destruct (run sched (pool_init out)) as [s1|] eqn:Hrun1; [|done]. simpl in Hrun.
    specialize (IH s1 eq_refl).
    pose proof (step_weight a s1 s (run_inv _ _ _ _ _ _ _ _ _ Hrun1) Hrun) as Hstep.
    unfold thread_steps in *. rewrite filter_app, length_app.
    destruct (is_thread_step a) eqn:Ha.
    + rewrite filter_cons_True by (simpl; rewrite Ha; exact I). simpl. lia.
    + rewrite filter_cons_False by (simpl; rewrite Ha; exact (λ x, x)). simpl. lia.
Qed.

Lemma log_length s : inv s → length (net_log s) ≤ length (futures s).
Proof.
  intros Hinv.
  assert (length (net_log s).*1 ≤ length (seq 0 (length (futures s)))) as Hle.
  { apply submseteq_length, NoDup_submseteq; [apply (inv_log_nodup _ _ _ _ _ Hinv)|].
    intros i [Hi _]%(inv_log_dom _ _ _ _ _ Hinv). apply elem_of_seq. lia. }
  by rewrite length_fmap, length_seq in Hle.
Qed.

(** X15: in every state of every run, crashed ones included, the
    requests sent are at most one per candidate submitted so far, and the
    request of work item [i] is the token request for the identifier of
    candidate [i]. *)
Theorem one_request_per_submission out sched s :
  run sched (pool_init out) = Some s →
  length (net_log s) ≤ length (futures s) ≤ length app_info
  ∧ NoDup (net_log s).*1
  ∧ ∀ i rq, (i, rq) ∈ net_log s →
      ∃ a, app_info !! i = Some a ∧ rq = token_request (app_client_id a) tenant.
Proof.
  intros Hrun. pose proof (run_inv _ _ _ _ _ _ _ _ _ Hrun) as Hinv.
  split_and!.
  - by apply log_length.
  - apply (submitted_ok_bound _ _ _ (inv_submitted _ _ _ _ _ Hinv)).
  - apply (inv_log_nodup _ _ _ _ _ Hinv).
  - apply (inv_log_req _ _ _ _ _ Hinv).
Qed.

(** X16: in every state of every run, [results] holds the outcomes of the
    first candidates, in the order of [app_info], and [found_apps] is the
    part of [results] with the status "exists", in the same order. *)
Theorem partial_results_in_order out sched s :
  run sched (pool_init out) = Some s →
  candidate_of <$> results s = Some <$> take (length (results s)) app_info
  ∧ found_apps s = filter (λ r, status_is r "exists") (results s)
  ∧ Forall (λ r, status_of r = Some "exists") (found_apps s).
Proof.
  intros Hrun. pose proof (run_inv _ _ _ _ _ _ _ _ _ Hrun) as Hinv.
  split_and!.
  - apply list_eq. intros k. rewrite !list_lookup_fmap.
    destruct (results s !! k) as [r|] eqn:Hk.
    + apply lookup_lt_Some in Hk as Hlt.
      apply (results_in_futures _ _ _ _ s k r Hinv) in Hk.
      apply (inv_done _ _ _ _ _ Hinv) in Hk as (a & reply & Ha & ->).
      rewrite lookup_take_lt, Ha by done. simpl. by rewrite probe_candidate.
    + apply lookup_ge_None in Hk. by rewrite lookup_take_ge.
  - apply (inv_found _ _ _ _ _ Hinv).
  - rewrite (inv_found _ _ _ _ _ Hinv). apply Forall_forall.
    intros r [Hr _]%list_elem_of_filter. unfold status_is in Hr. unfold status_of.
    destruct (r !! "status") as [[]|]; try done. by case_bool_decide; simplify_eq.
Qed.
End DispatcherMore.

(** ** The duration of the block *)

Section Duration.
Variable h : host.
Variable app_info : list app.
Variable tenant : string.
Variable workers : Z.
Variable delay : Q.
Variable verbose : bool.

Local Notation run := (exec h app_info tenant workers delay verbose).

Lemma slept_after_last out sched s :
  run sched (pool_init out) = Some s →
  timing_inv delay s
  ∧ ∀ t, last (submit_times s) = Some t →
      match pc s with
      | Collecting _ | Leaving None | Left None => (t + delay <= clock s)%Q
      | _ => True
      end.
Proof.
  revert sched s. apply (run_ind h app_info tenant workers delay verbose).
  - split; [apply init_timing|done].
  - intros a s s' _ [Htim Hlast] Hstep.
    split; [by eapply step_timing|].
    pose proof (tim_next _ _ Htim) as Hnext.
    destruct a as [dt| | |i reply].
    + simpl in Hstep. destruct (Qle_bool 0 dt) eqn:Hdt; simplify_eq.
      apply Qle_bool_iff in Hdt. cbn [pc clock submit_times].
      intros t Ht. specialize (Hlast t Ht). destruct (pc s) as [| | |[]|[]]; try done; lra.
    + simpl in Hstep. unfold main_step in Hstep.
      destruct (pc s) as [i|i wake|j|e|e] eqn:Epc.
      * destruct (app_info !! i); simplify_eq; cbn [pc clock submit_times].
        -- intros t _. unfold after_submit.
           by destruct (sleep_error h delay), (Qle_bool 0 delay).
        -- intros t Ht. by apply Hnext.
      * destruct (Qle_bool wake (clock s)); by simplify_eq.
      * destruct (futures s !! j) as [[r|]|]; simplify_eq; [|done].
        destruct (if status_is r "exists" then _ else _) as [raised out1].
        simplify_eq. cbn [pc clock submit_times]. by destruct raised.
      * case_bool_decide; simplify_eq. cbn [pc clock submit_times]. by destruct e.
      * done.
    + simpl in Hstep. destruct (queue s) as [|i rest]; [done|].
      destruct (app_info !! i); [|done]. case_bool_decide; by simplify_eq.
    + unfold step in Hstep. destruct (app_info !! i) as [a|]; [|done].
      case_bool_decide; [|done].
      destruct (continue (probe h tenant verbose a) reply). by simplify_eq.
Qed.

(** X17: the results are read only after the last sleep: in a run with a
    delay [d] that is not negative, from the moment the second loop is
    entered the clock is at least [n * d] past the first submission, [n]
    being the number of candidates, however fast the probes were. *)
Theorem block_lasts_all_sleeps out sched s t0 :
  (0 <= delay)%Q →
  run sched (pool_init out) = Some s →
  head (submit_times s) = Some t0 →
  match pc s with
  | Collecting _ | Leaving None | Left None =>
      (t0 + inject_Z (Z.of_nat (length app_info)) * delay <= clock s)%Q
  | _ => True
  end.
Proof.
  intros Hd Hrun H0.
  destruct (slept_after_last out sched s Hrun) as [[Hlen _ Hpaced _] Hlast].
  pose proof (inv_submitted _ _ _ _ _ (run_inv _ _ _ _ _ _ _ _ _ Hrun)) as Hsub.
  assert (pc s = pc s) as Hpc by done. revert Hpc Hlast Hsub.
  generalize (pc s) at 2 3 4 5. intros p Hpc Hlast Hsub.
  assert (length (submit_times s) = length app_info →
          (∀ t, last (submit_times s) = Some t → (t + delay <= clock s)%Q) →
          (t0 + inject_Z (Z.of_nat (length app_info)) * delay <= clock s)%Q) as Hgo.
  { intros Hn Hl. rewrite head_lookup in H0.
    destruct (last (submit_times s)) as [tl|] eqn:Htl.
    - specialize (Hl tl eq_refl). rewrite last_lookup in Htl.
      pose proof (paced_span _ _ _ _ _ Hpaced H0 Htl) as Hspan.
      assert (length (submit_times s) ≠ 0) by (by destruct (submit_times s)).
      replace (Z.of_nat (length app_info))
        with (Z.of_nat (pred (length (submit_times s))) + 1)%Z by lia.
      rewrite inject_Z_plus. change (inject_Z 1) with 1%Q. lra.
    - rewrite last_None in Htl. by rewrite Htl in H0. }
  destruct p as [| |j|[]|[]]; try done; simpl in Hsub;
    (apply Hgo; [by rewrite Hlen|done]).
Qed.
End Duration.

(** ** A negative delay *)

Section NegativeDelay.
Variable h : host.
Variable app_info : list app.
Variable tenant : string.
Variable workers : Z.
Variable delay : Q.
Variable verbose : bool.

Local Notation run := (exec h app_info tenant workers delay verbose).

Lemma negative_delay_pc out sched s :
  (delay < 0)%Q → app_info ≠ [] →
  run sched (pool_init out) = Some s →
  results s = []
  ∧ match pc s with
    | Submitting i => i = 0 ∧ futures s = []
    | Leaving (Some e) | Left (Some e) => length (futures s) = 1
    | _ => False
    end.
Proof.
  intros Hd Hne. revert sched s.
  assert (Qle_bool 0 delay = false) as Hneg.
  { destruct (Qle_bool 0 delay) eqn:E; [|done]. apply Qle_bool_iff in E. lra. }
  apply (run_ind h app_info tenant workers delay verbose).
  - done.
  - intros a s s' _ [Hres Hpc] Hstep. destruct a as [dt| | |i reply].
    + simpl in Hstep. destruct (Qle_bool 0 dt); by simplify_eq.
    + simpl in Hstep. unfold main_step in Hstep.
      destruct (pc s) as [i|i wake|j|[e|]|[e|]] eqn:Epc; try done.
      * destruct Hpc as [-> Hf]. destruct app_info as [|a apps] eqn:Happs; [done|].
        simpl in Hstep. simplify_eq. cbn [pc futures results].
        unfold after_submit. rewrite Hneg, Hf.
        by destruct (sleep_error h delay).
      * case_bool_decide; by simplify_eq.
    + simpl in Hstep. destruct (queue s) as [|i rest]; [done|].
      destruct (app_info !! i); [|done]. case_bool_decide; by simplify_eq.
    + unfold step in Hstep. destruct (app_info !! i) as [a|]; [|done].
      case_bool_decide; [|done].
      destruct (continue (probe h tenant verbose a) reply). simplify_eq.
      cbn [pc futures results]. split; [done|].
      destruct (pc s) as [k| | |[e|]|[e|]]; try done.
      * destruct Hpc as [-> Hf]. by rewrite Hf.
      * by rewrite length_insert.
      * by rewrite length_insert.
Qed.

Lemma negative_delay_block out sched s :
  (delay < 0)%Q → app_info ≠ [] →
  run sched (pool_init out) = Some s →
  results s = [] ∧ length (net_log s) ≤ 1 ∧ pc s ≠ Left None.
Proof.
  intros Hd Hne Hrun.
  destruct (negative_delay_pc out sched s Hd Hne Hrun) as [Hres Hpc].
  pose proof (run_inv _ _ _ _ _ _ _ _ _ Hrun) as Hinv.
  pose proof (log_length _ _ _ _ _ Hinv) as Hlog.
  split_and!; [done| |].
  - destruct (pc s) as [i|i wake|j|[e|]|[e|]]; try done.
    + destruct Hpc as [_ Hf]. rewrite Hf in Hlog. simpl in Hlog. lia.
    + lia.
    + lia.
  - intros Hleft. by rewrite Hleft in Hpc.
Qed.
End NegativeDelay.

(** ** [main] *)

Section MainMore.
Variable h : host.
Variable args : arguments.

Local Notation loading := (load_app_info h (arg_file args)).

(** X18: with a negative delay and candidates loaded, every run ends with
    the exit status 1: without an outcome, without an output file, and
    after one request at most, the first [time.sleep] raising before the
    second submission; and with a worker count of at least 1 there is
    such a run. *)
Theorem negative_delay_exits_1 apps :
  loading.2 = Return apps → apps ≠ [] → (arg_delay args < 0)%Q →
  (∀ sched p, main h args sched = Some p →
     exit_code (ended p) = 1%Z ∧ outcomes p = [] ∧ written p = None
     ∧ length (requests_sent p) ≤ 1)
  ∧ ((1 ≤ arg_workers args)%Z → ∃ sched p, main h args sched = Some p).
Proof.
  intros Hload Hne Hd. split.
  - intros sched p.
    destruct (main_loaded_cases h args apps sched Hload Hne)
      as [(p' & -> & Hexit & Hreq & Hres & Hfile)|[_ ->]].
    { intros [= <-]. rewrite Hreq. split_and!; [done..|simpl; lia]. }
    destruct (ThreadPoolExecutor (arg_workers args)) as [[]|e].
    + destruct (exec _ _ _ _ _ _ sched _) as [s|] eqn:Hrun; [|done]. simpl.
      destruct (negative_delay_block _ _ _ _ _ _ _ _ _ Hd Hne Hrun) as (Hres & Hlog & Hleft).
      destruct (pc s) as [| | | |[e|]] eqn:Hpc; try done.
      intros [= <-]. simpl. rewrite length_fmap. by split_and!.
    + intros [= <-]. simpl. split_and!; [done..|lia].
  - intros Hw.
    destruct (main_loaded_cases h args apps [] Hload Hne)
      as [(p' & Hp & _)|[Hstart _]]; [by exists [], p'|].
    destruct (finish h apps (arg_tenant args) (arg_workers args) (arg_delay args)
                (arg_verbose args) (λ _, JsonBody JNull) _
                (pool_init (loading.1 ++ announce (arg_tenant args) apps)) (le_n _)
                (init_inv _ _ _ _ _) Hw)
      as (sched & s & Hrun & [e Hpc] & _).
    destruct (negative_delay_block _ _ _ _ _ _ _ _ _ Hd Hne Hrun) as (_ & _ & Hleft).
    exists sched.
    rewrite (main_loaded h args apps sched Hload Hne Hstart), (pool_accepts args Hw).
    rewrite Hrun. simpl. rewrite Hpc. destruct e; [by eexists|done].
Qed.

(** X19: with candidates loaded and a worker count below 1, every run ends
    before a request is sent and without an outcome, with the status 1;
    when the line of the loading and the two lines announcing the scan can
    be printed, they are, and [ThreadPoolExecutor] raises the [ValueError]
    that ends the process. *)
Theorem no_worker_no_request apps sched :
  loading.2 = Return apps → apps ≠ [] → (arg_workers args ≤ 0)%Z →
  ∃ p, main h args sched = Some p
    ∧ exit_code (ended p) = 1%Z ∧ requests_sent p = [] ∧ outcomes p = []
    ∧ written p = None
    ∧ (printable h
         (loading.1
            ++ ["[INFO] Starting detection in tenant " +:+ arg_tenant args;
                "[INFO] Loaded " +:+ pretty (length apps) +:+ " application IDs"]) →
       p = {| ended := Uncaught (Exception "ValueError"
                                   "max_workers must be greater than 0");
              console :=
                loading.1
                  ++ ["[INFO] Starting detection in tenant " +:+ arg_tenant args;
                      "[INFO] Loaded " +:+ pretty (length apps) +:+ " application IDs"];
              requests_sent := []; outcomes := []; written := None |}).
Proof.
  intros Hload Hne Hw.
  destruct (main_without_workers h args apps sched Hload Hne Hw)
    as (p & Hp & Hexit & Hreq & Hres & Hfile).
  exists p. split_and!; [done..|].
  intros Hstart.
  rewrite (main_loaded h args apps sched Hload Hne Hstart), (pool_refuses args Hw) in Hp.
  by injection Hp as <-.
Qed.

(** X20: a run that [main] carries to its end, each line of the main
    thread being printed, reports every candidate: the outcomes list the
    candidates loaded, in their order, the requests sent are one token
    request per candidate, and the console holds, one after the other, the
    line "[RESULT] Total applications checked: " with the number of
    candidates and the line "[RESULT] Found existing applications: " with
    the number of outcomes with the status "exists". *)
Theorem run_reports_every_candidate apps sched p :
  loading.2 = Return apps → apps ≠ [] →
  (1 ≤ arg_workers args)%Z →
  sleep_error h (arg_delay args) = None → (0 <= arg_delay args)%Q →
  main h args sched = Some p →
  printable h (main_lines h args apps (outcomes p)) →
  ended p = Returns
  ∧ candidate_of <$> outcomes p = Some <$> apps
  ∧ requests_sent p
    ≡ₚ (λ a, token_request (app_client_id a) (arg_tenant args)) <$> apps
  ∧ ∃ before after,
      console p
      = before
        ++ [nl +:+ "[RESULT] Total applications checked: " +:+ pretty (length apps);
            "[RESULT] Found existing applications: "
              +:+ pretty (length (filter (λ r, status_is r "exists") (outcomes p)))]
        ++ after.
Proof.
  intros Hload Hne Hw Hsleep Hd Hp Hprint.
  destruct (main_returns h args apps sched p Hload Hne Hw Hsleep Hd Hp Hprint)
    as (s & Hrun & Hc & ->).
  pose proof (run_inv _ _ _ _ _ _ _ _ _ Hrun) as Hinv.
  cbn [ended console outcomes requests_sent].
  split_and!.
  - done.
  - by apply (candidates_of_results h (arg_tenant args) (arg_verbose args)),
      completed_results.
  - by eapply log_requests.
  - by eexists _, _.
Qed.

(** X21: in a run carried to its end, each line of the main thread being
    printed, no file is written without an output path (none given, or the
    empty string); with one, when [json.dump] returns, the file holds the
    outcomes of the run, one per candidate and in their order, and the
    console reports the path with the line "[INFO] Results saved to ",
    after which only the listing of the applications found comes. *)
Theorem output_file_holds_outcomes apps sched p :
  loading.2 = Return apps → apps ≠ [] →
  (1 ≤ arg_workers args)%Z →
  sleep_error h (arg_delay args) = None → (0 <= arg_delay args)%Q →
  main h args sched = Some p →
  printable h (main_lines h args apps (outcomes p)) →
  ended p = Returns
  ∧ (arg_output args = None ∨ arg_output args = Some "" → written p = None)
  ∧ (∀ path, arg_output args = Some path → path ≠ "" →
       write_json h path (outcomes p) = None →
       written p = Some (path, outcomes p)
       ∧ candidate_of <$> outcomes p = Some <$> apps
       ∧ ∃ before listing,
           console p = before ++ ["[INFO] Results saved to " +:+ path] ++ listing
           ∧ length listing
             = match filter (λ r, status_is r "exists") (outcomes p) with
               | [] => 0
               | found => S (length found)
               end).
Proof.
  intros Hload Hne Hw Hsleep Hd Hp Hprint.
  destruct (main_returns h args apps sched p Hload Hne Hw Hsleep Hd Hp Hprint)
    as (s & Hrun & Hc & ->).
  pose proof (run_inv _ _ _ _ _ _ _ _ _ Hrun) as Hinv.
  cbn [ended console outcomes written].
  split_and!.
  - done.
  - unfold saved_file. by intros [-> | ->].
  - intros path Hout Hpath Hwrite.
    unfold saved_file, save_line. rewrite Hout, Hwrite.
    split_and!.
    + by destruct path.
    + by apply (candidates_of_results h (arg_tenant args) (arg_verbose args)),
        completed_results.
    + eexists (stdout s ++ summary apps _), _. split.
      * rewrite <- !app_assoc. by destruct path.
      * unfold found_listing. destruct (filter _ (results s)); [done|].
        cbn [length]. by rewrite length_map.
Qed.
End MainMore.

(** ** Sample runs of the further facts *)

Lemma sample_csv_loaded :
  load_client_ids_from_csv (sample_host true) "apps.csv" = Return sample_apps.
Proof. vm_compute. reflexivity. Defined.

Lemma sample_main_run (writable : bool) :
  ∃ p, main (sample_host writable) (sample_args 2) sample_sched = Some p.
Proof. destruct writable; vm_compute; eexists; reflexivity. Defined.

Lemma sample_prefix_state :
  ∃ s, exec (sample_host false) sample_apps "contoso.onmicrosoft.com" 2 (1 # 2)%Q true
         (take 7 sample_sched) (pool_init []) = Some s.
Proof. vm_compute. eexists. reflexivity. Defined.

Lemma txt_loader_keeps_stripped_lines_witness :
  ∃ apps, load_client_ids_from_txt txt_host "ids.txt" = Return apps
    ∧ app_client_id <$> apps
      = filter (λ s, s ≠ "") (str_strip txt_host <$> ["1b730954"; ""; "04b07795"])
    ∧ Forall (λ a, app_display_name a = "") apps.
Proof.
  apply (proj2 (txt_loader_keeps_stripped_lines txt_host "ids.txt")
           ["1b730954"; ""; "04b07795"]).
  reflexivity.
Defined.

Lemma csv_loader_candidates_witness :
  Forall (λ a, app_client_id a ≠ "") sample_apps ∧ length sample_apps ≤ length sample_rows.
Proof.
  apply (csv_loader_candidates (sample_host true) "apps.csv" "appId,displayName"
           sample_rows sample_apps).
  - reflexivity.
  - reflexivity.
  - exact sample_csv_loaded.
Defined.

Lemma short_row_aborts_run_witness :
  ∃ p, main short_row_host (sample_args 2) sample_sched = Some p
       ∧ ended p = SysExit 1
       ∧ console p = ["[INFO] Detected CSV format file";
                      "Error: Unable to read file: "
                        +:+ "'NoneType' object has no attribute 'strip'"].
Proof.
  destruct (short_row_aborts_run short_row_host (sample_args 2) "displayName,appId"
              [ {[ "displayName" := Some "Portal"; "appId" := Some "1b730954" ]};
                {[ "displayName" := Some "Graph"; "appId" := None ]} ] sample_sched
              (or_introl eq_refl) eq_refl eq_refl
              ltac:(apply Exists_cons_tl, Exists_cons_hd; vm_compute; reflexivity))
    as (p & Hp & _ & _ & _ & _ & Hprinted).
  exists p. split; [exact Hp|].
  rewrite Hprinted; [split; reflexivity|].
  repeat constructor.
Defined.

Lemma no_app_id_aborts_run_witness :
  ∃ p, main no_column_host (sample_args 2) sample_sched = Some p
       ∧ ended p = SysExit 1
       ∧ console p = ["[INFO] Detected CSV format file";
                      "Error: No valid application ID data found"].
Proof.
  destruct (no_app_id_aborts_run no_column_host (sample_args 2) "id,name"
              [ {[ "id" := Some "1b730954"; "name" := Some "Portal" ]} ] sample_sched
              (or_introl eq_refl) eq_refl eq_refl
              ltac:(constructor; [|constructor]; left; vm_compute; reflexivity))
    as (p & Hp & _ & _ & _ & _ & Hprinted).
  exists p. split; [exact Hp|].
  rewrite Hprinted; [split; reflexivity|].
  repeat constructor.
Defined.

Lemma format_from_first_line_witness :
  (load_app_info tabbed_host "apps.lst").2 = load_client_ids_from_csv tabbed_host "apps.lst"
  ∧ (load_app_info comma_host "apps.lst").2 = load_client_ids_from_txt comma_host "apps.lst".
Proof.
  assert (∀ h, splitext_lower h "apps.lst" = ".lst" →
            splitext_lower h "apps.lst" ∉ [".txt"; ".csv"; ".tsv"]) as Hext.
  { intros h -> Hin. apply list_elem_of_In in Hin. simpl in Hin.
    destruct Hin as [?|[?|[?|[]]]]; discriminate. }
  assert (∀ s fl, contains s fl = false → ¬ ∃ pre post, fl = pre +:+ s +:+ post) as Hnot.
  { intros s fl Hc Hs%contains_iff. congruence. }
  split.
  - rewrite (proj1 (format_from_first_line tabbed_host "apps.lst"
                      ("1b730954" +:+ tab +:+ "Portal") (Hext tabbed_host eq_refl) eq_refl)).
    + reflexivity.
    + exists "1b730954", "Portal". reflexivity.
  - rewrite (proj2 (proj2 (format_from_first_line comma_host "apps.lst"
                             "1b730954,Portal" (Hext comma_host eq_refl) eq_refl))).
    + reflexivity.
    + apply Hnot. vm_compute. reflexivity.
    + apply Hnot. vm_compute. reflexivity.
    + apply Hnot. vm_compute. reflexivity.
Defined.

Lemma token_request_inj_witness :
  "1b730954" = "1b730954" ∧ "contoso.onmicrosoft.com" = "contoso.onmicrosoft.com".
Proof.
  apply (token_request_inj "1b730954" "contoso.onmicrosoft.com"
           "1b730954" "contoso.onmicrosoft.com").
  reflexivity.
Defined.

Lemma body_not_an_object_is_error_witness :
  status_of (probe_result (sample_host true) (App "1b730954" "Portal")
               "contoso.onmicrosoft.com" true (JsonBody (JList [])))
  = Some "error".
Proof.
  apply (body_not_an_object_is_error (sample_host true) "contoso.onmicrosoft.com" true
           (App "1b730954" "Portal") (JList [])).
  discriminate.
Defined.

(** The first character of a string, not its first byte. *)
Example first_char_of_accented : first_char "é1" = "é" ∧ first_char "A1" = "A".
Proof. split; reflexivity. Qed.

Lemma error_codes_not_a_list_witness :
  let r := probe_result (sample_host true) (App "1b730954" "Portal")
             "contoso.onmicrosoft.com" true
             (JsonBody (JDict {[ "error_codes" := JStr "é1" ]})) in
  status_of r = Some "unknown" ∧ r !! "error_code" = Some (JStr "é").
Proof.
  assert (({[ "error_codes" := JStr "é1" ]} : gmap string json) !! "error_codes"
          = Some (JStr "é1")) as Hm
    by (vm_compute; reflexivity).
  exact (error_codes_not_a_list (sample_host true) "contoso.onmicrosoft.com" true
           (App "1b730954" "Portal") _ _ Hm eq_refl).
Defined.

Lemma codes_compare_by_value_witness :
  status_of (probe_result (sample_host true) (App "1b730954" "Portal")
               "contoso.onmicrosoft.com" true
               (JsonBody (JDict {[ "error_codes" :=
                                     JList [JFloat (PyFinite (14000430 # 2))] ]})))
  = Some "exists".
Proof.
  assert (({[ "error_codes" := JList [JFloat (PyFinite (14000430 # 2))] ]}
             : gmap string json) !! "error_codes"
          = Some (JList [JFloat (PyFinite (14000430 # 2))])) as Hm
    by (vm_compute; reflexivity).
  apply (proj1 (codes_compare_by_value (sample_host true) "contoso.onmicrosoft.com" true
                  (App "1b730954" "Portal") _ _ [] Hm eq_refl)
           (14000430 # 2)%Q eq_refl).
  reflexivity.
Defined.

Lemma recorded_fields_witness :
  let r := probe_result (sample_host true) (App "1b730954" "Portal")
             "contoso.onmicrosoft.com" true
             (JsonBody (JDict {[ "error_codes" := JList [JInt 90002; JInt 7000215] ]})) in
  r !! "error_code" = Some (JInt 90002)
  ∧ r !! "error_description"
    = Some (default (JStr "")
              (({[ "error_codes" := JList [JInt 90002; JInt 7000215] ]}
                  : gmap string json) !! "error_description")).
Proof.
  assert (({[ "error_codes" := JList [JInt 90002; JInt 7000215] ]}
             : gmap string json) !! "error_codes"
          = Some (JList [JInt 90002; JInt 7000215])) as Hm
    by (vm_compute; reflexivity).
  exact (recorded_fields (sample_host true) "contoso.onmicrosoft.com" true
           (App "1b730954" "Portal") _ (JInt 90002) [JInt 7000215] Hm).
Defined.

Lemma in_flight_bounded_witness :
  ∃ s, sample_final = Some s ∧ (Z.of_nat (size (running s)) ≤ 2)%Z.
Proof.
  destruct sample_final_completed as (s & Hrun & _).
  exists s. split; [exact Hrun|].
  apply (in_flight_bounded (sample_host false) sample_apps "contoso.onmicrosoft.com"
           2 (1 # 2)%Q true [] sample_sched s ltac:(lia) Hrun).
Defined.

Lemma no_deadlock_witness :
  ∃ sched' s' e,
    exec (sample_host false) sample_apps "contoso.onmicrosoft.com" 2 (1 # 2)%Q true
      (take 7 sample_sched ++ sched') (pool_init []) = Some s'
    ∧ pc s' = Left e ∧ deals sample_replies sched'.
Proof.
  destruct sample_prefix_state as (s & Hrun).
  apply (no_deadlock (sample_host false) sample_apps "contoso.onmicrosoft.com"
           2 (1 # 2)%Q true [] (take 7 sample_sched) s sample_replies ltac:(lia) Hrun).
Defined.

Lemma thread_steps_bounded_witness :
  thread_steps sample_sched ≤ 5 * length sample_apps + 4.
Proof.
  destruct sample_final_completed as (s & Hrun & _).
  apply (thread_steps_bounded (sample_host false) sample_apps "contoso.onmicrosoft.com"
           2 (1 # 2)%Q true [] sample_sched s Hrun).
Defined.

Lemma one_request_per_submission_witness :
  ∃ s, sample_final = Some s ∧ NoDup (net_log s).*1.
Proof.
  destruct sample_final_completed as (s & Hrun & _).
  exists s. split; [exact Hrun|].
  apply (one_request_per_submission (sample_host false) sample_apps
           "contoso.onmicrosoft.com" 2 (1 # 2)%Q true [] sample_sched s Hrun).
Defined.

Lemma partial_results_in_order_witness :
  ∃ s, exec (sample_host false) sample_apps "contoso.onmicrosoft.com" 2 (1 # 2)%Q true
         (take 7 sample_sched) (pool_init []) = Some s
       ∧ found_apps s = filter (λ r, status_is r "exists") (results s).
Proof.
  destruct sample_prefix_state as (s & Hrun).
  exists s. split; [exact Hrun|].
  apply (partial_results_in_order (sample_host false) sample_apps
           "contoso.onmicrosoft.com" 2 (1 # 2)%Q true [] (take 7 sample_sched) s Hrun).
Defined.

Lemma negative_delay_exits_1_witness :
  ∃ sched p, main (sample_host true) negative_delay_args sched = Some p.
Proof.
  apply (proj2 (negative_delay_exits_1 (sample_host true) negative_delay_args sample_apps
                  ltac:(vm_compute; reflexivity) ltac:(discriminate) ltac:(reflexivity))).
  simpl. lia.
Defined.

Lemma no_worker_no_request_witness :
  ∃ p, main (sample_host true) (sample_args 0) sample_sched = Some p
       ∧ requests_sent p = []
       ∧ ended p = Uncaught (Exception "ValueError" "max_workers must be greater than 0").
Proof.
  destruct (no_worker_no_request (sample_host true) (sample_args 0) sample_apps sample_sched
              ltac:(vm_compute; reflexivity) ltac:(discriminate) ltac:(simpl; lia))
    as (p & Hp & _ & Hreq & _ & _ & Hprinted).
  exists p. split_and!; [exact Hp|exact Hreq|].
  rewrite Hprinted; [reflexivity|]. apply sample_printable.
Defined.

Lemma run_reports_every_candidate_witness :
  ∃ p, main (sample_host true) (sample_args 2) sample_sched = Some p
       ∧ ended p = Returns
       ∧ candidate_of <$> outcomes p = Some <$> sample_apps.
Proof.
  destruct (sample_main_run true) as [p Hp].
  exists p. split; [exact Hp|].
  destruct (run_reports_every_candidate (sample_host true) (sample_args 2) sample_apps
              sample_sched p ltac:(vm_compute; reflexivity) ltac:(discriminate)
              ltac:(simpl; lia) eq_refl sample_delay_ok Hp (sample_printable true _))
    as (Hend & Hcand & _).
  split; [exact Hend|exact Hcand].
Defined.

Lemma output_file_holds_outcomes_witness :
  ∃ p, main (sample_host true) (sample_args 2) sample_sched = Some p
       ∧ written p = Some ("out.json", outcomes p).
Proof.
  destruct (sample_main_run true) as [p Hp].
  exists p. split; [exact Hp|].
  apply (proj2 (proj2 (output_file_holds_outcomes (sample_host true) (sample_args 2)
                         sample_apps sample_sched p ltac:(vm_compute; reflexivity)
                         ltac:(discriminate) ltac:(simpl; lia) eq_refl sample_delay_ok Hp
                         (sample_printable true _)))
           "out.json" eq_refl ltac:(discriminate) eq_refl).
Defined.

Lemma block_lasts_all_sleeps_witness :
  ∃ s, sample_final = Some s ∧ (0 + inject_Z 3 * (1 # 2) <= clock s)%Q.
Proof.
  destruct sample_final_completed as (s & Hrun & Hc).
  exists s. split; [exact Hrun|].
  pose proof (block_lasts_all_sleeps (sample_host false) sample_apps
                "contoso.onmicrosoft.com" 2 (1 # 2)%Q true [] sample_sched s 0%Q
                sample_delay_ok Hrun) as Hlasts.
  unfold completed in Hc. rewrite Hc in Hlasts. apply Hlasts.
  clear Hlasts Hc. unfold sample_final in Hrun. vm_compute in Hrun.
  injection Hrun as <-. reflexivity.
Defined.
